(** * Model100Layout: the keymap sketch of a Keyboardio Model 100

    A shallow embedding of [Model100Layout.ino]: the layer enumeration, the
    six keymaps as the sketch writes them, the macro handlers, the host
    power-management handler, the magic-combo table and its actions.

    The sketch runs inside the Kaleidoscope firmware core, which it does not
    define.  Whatever belongs to the core is marked as such where it is
    introduced: a constant of the core's headers is given with the value it
    has there, an operation of the core the sketch merely calls is recorded
    in a trace of calls, and the two algorithms that only the written
    description of the firmware gives (walking the active layers, matching
    chords) are modelled from that description and say so. *)

From stdpp Require Import base numbers list gmap strings.

Local Open Scope Z_scope.

(** ** Layers *)

(** [enum { SPECIAL, PRIMARY, SYMBOL, NAVIGATION, GAMING, NUMPAD }]:
    layers are 0-indexed, in this order. *)
Inductive Layer : Type :=
  | SPECIAL
  | PRIMARY
  | SYMBOL
  | NAVIGATION
  | GAMING
  | NUMPAD.

Definition layer_index (l : Layer) : nat :=
  match l with
  | SPECIAL => 0 | PRIMARY => 1 | SYMBOL => 2
  | NAVIGATION => 3 | GAMING => 4 | NUMPAD => 5
  end%nat.

Definition layer_of_index (n : nat) : option Layer :=
  match n with
  | 0 => Some SPECIAL | 1 => Some PRIMARY | 2 => Some SYMBOL
  | 3 => Some NAVIGATION | 4 => Some GAMING | 5 => Some NUMPAD
  | _ => None
  end%nat.

Definition declared_layers : list Layer :=
  [SPECIAL; PRIMARY; SYMBOL; NAVIGATION; GAMING; NUMPAD].

#[global] Instance Layer_eq_dec : EqDecision Layer.
Proof. solve_decision. Defined.

(** ** Keys, as the keymaps name them *)

(** The entries of the keymaps are kept the way the sketch writes them: the
    [Key_] constants of the USB HID table, the two sentinels, the consumer
    keys, the modifier wrappers and the two layer keys.  [Key_Esc] and
    [Key_Escape] are two spellings the sketch uses; they are kept apart. *)
Inductive Key : Type :=
  | Key_Transparent
  | Key_NoKey
  | Key_A | Key_B | Key_C | Key_D | Key_E | Key_F | Key_G | Key_H | Key_I
  | Key_J | Key_K | Key_L | Key_M | Key_N | Key_O | Key_P | Key_Q | Key_R
  | Key_S | Key_T | Key_U | Key_V | Key_W | Key_X | Key_Y | Key_Z
  | Key_1 | Key_2 | Key_3 | Key_4 | Key_5 | Key_6 | Key_7 | Key_8 | Key_9
  | Key_0
  | Key_F1 | Key_F2 | Key_F3 | Key_F4 | Key_F5 | Key_F6
  | Key_F7 | Key_F8 | Key_F9 | Key_F10 | Key_F11 | Key_F12
  | Key_Esc | Key_Escape | Key_Enter | Key_Backspace | Key_Tab | Key_Spacebar
  | Key_Delete | Key_CapsLock | Key_Backtick
  | Key_Minus | Key_Equals | Key_Semicolon | Key_Quote
  | Key_Comma | Key_Period | Key_Slash | Key_Backslash | Key_Pipe
  | Key_LeftParen | Key_RightParen
  | Key_LeftBracket | Key_RightBracket
  | Key_LeftCurlyBracket | Key_RightCurlyBracket
  | Key_LeftArrow | Key_RightArrow | Key_UpArrow | Key_DownArrow
  | Key_Home | Key_End
  | Key_LeftControl | Key_LeftShift | Key_LeftAlt | Key_LeftGui
  | Key_RightControl | Key_RightShift | Key_RightAlt | Key_RightGui
  | Key_KeypadSubtract | Key_KeypadAdd | Key_KeypadMultiply | Key_KeypadDivide
  | Consumer_ScanNextTrack | Consumer_PlaySlashPause
  | Consumer_ScanPreviousTrack
  | LSHIFT (k : Key)
  | LCTRL (k : Key)
  | LGUI (k : Key)
  | ShiftToLayer (l : Layer)
  | LockLayer (l : Layer).

(** [___] lets a key press fall through to the previously active layer,
    [XXX] marks a key switch as blocked on this layer. *)
Definition ___ : Key := Key_Transparent.
Definition XXX : Key := Key_NoKey.

Definition is_transparent (k : Key) : bool :=
  match k with Key_Transparent => true | _ => false end.

Definition is_blocked (k : Key) : bool :=
  match k with Key_NoKey => true | _ => false end.

(** ** Key addresses *)

(** A key switch is addressed by its row and column in the 4 x 16 matrix. *)
Record KeyAddr : Type := mkKeyAddr { row : nat; col : nat }.

Definition matrix_rows : nat := 4.
Definition matrix_columns : nat := 16.

Definition KeyAddr_toInt (a : KeyAddr) : nat :=
  (row a * matrix_columns + col a)%nat.

Definition KeyAddr_valid (a : KeyAddr) : bool :=
  (row a <? matrix_rows)%nat && (col a <? matrix_columns)%nat.

Definition all_key_addrs : list KeyAddr :=
  r ← seq 0 matrix_rows; c ← seq 0 matrix_columns; [mkKeyAddr r c].

#[global] Instance KeyAddr_eq_dec : EqDecision KeyAddr.
Proof. solve_decision. Defined.

#[global] Instance KeyAddr_countable : Countable KeyAddr.
Proof.
  refine (inj_countable' (fun a => (row a, col a))
                         (fun p => mkKeyAddr p.1 p.2) _).
  by intros [].
Defined.

(** The switches the magic combos name. *)
Definition R0C0 : KeyAddr := mkKeyAddr 0 0.
Definition R0C6 : KeyAddr := mkKeyAddr 0 6.
Definition R2C6 : KeyAddr := mkKeyAddr 2 6.
Definition R3C6 : KeyAddr := mkKeyAddr 3 6.
Definition R3C7 : KeyAddr := mkKeyAddr 3 7.

(** ** The keymaps *)

(** Modelled from the spec: the macro [KEYMAP_STACKED] is defined by the
    hardware header of the Model 100, not by the sketch.  A key position is
    a (row, column) pair; the macro takes the 64 keys in the order of the
    physical layout, left hand first, and lays them out row by row of the
    4 x 16 matrix.  The sketch's own comments agree on the places it names:
    R3C6 is the left palm key (Left Fn), R2C6 the last key of the fourth
    line (Esc), R3C7 the fourth thumb key (Shift), R0C0 the first key
    (Prog), R0C6 the last key of the first line (LED), and KeyAddr(3, 14)
    the key of the question mark. *)
Definition KEYMAP_STACKED
    (r0c0 r0c1 r0c2 r0c3 r0c4 r0c5 r0c6
     r1c0 r1c1 r1c2 r1c3 r1c4 r1c5 r1c6
     r2c0 r2c1 r2c2 r2c3 r2c4 r2c5
     r3c0 r3c1 r3c2 r3c3 r3c4 r3c5 r2c6
     r0c7 r1c7 r2c7 r3c7
     r3c6
     r0c9 r0c10 r0c11 r0c12 r0c13 r0c14 r0c15
     r1c9 r1c10 r1c11 r1c12 r1c13 r1c14 r1c15
     r2c10 r2c11 r2c12 r2c13 r2c14 r2c15
     r2c9 r3c10 r3c11 r3c12 r3c13 r3c14 r3c15
     r3c8 r2c8 r1c8 r0c8
     r3c9 : Key) : list Key :=
  [ r0c0; r0c1; r0c2; r0c3; r0c4; r0c5; r0c6; r0c7;
    r0c8; r0c9; r0c10; r0c11; r0c12; r0c13; r0c14; r0c15;
    r1c0; r1c1; r1c2; r1c3; r1c4; r1c5; r1c6; r1c7;
    r1c8; r1c9; r1c10; r1c11; r1c12; r1c13; r1c14; r1c15;
    r2c0; r2c1; r2c2; r2c3; r2c4; r2c5; r2c6; r2c7;
    r2c8; r2c9; r2c10; r2c11; r2c12; r2c13; r2c14; r2c15;
    r3c0; r3c1; r3c2; r3c3; r3c4; r3c5; r3c6; r3c7;
    r3c8; r3c9; r3c10; r3c11; r3c12; r3c13; r3c14; r3c15 ].

Definition keymap_SPECIAL : list Key := KEYMAP_STACKED
  ___ Key_F1 Key_F2 Key_F3 Key_F4 Key_F5 Key_F6
  ___ XXX XXX XXX XXX Consumer_ScanNextTrack ___
  ___ XXX XXX XXX XXX Consumer_PlaySlashPause
  ___ ___ XXX XXX XXX Consumer_ScanPreviousTrack XXX
  ___ Key_Delete Key_Delete ___
  XXX

  Key_F7 Key_F8 Key_F9 Key_F10 Key_F11 Key_F12 (LockLayer GAMING)
  XXX XXX XXX XXX XXX XXX XXX
  ___ (LGUI (LCTRL Key_LeftArrow)) XXX (LGUI (LCTRL Key_RightArrow)) XXX XXX
  ___ ___ XXX XXX XXX XXX XXX
  ___ ___ (LSHIFT Key_Minus) ___
  XXX.

Definition keymap_PRIMARY : list Key := KEYMAP_STACKED
  Key_Esc Key_1 Key_2 Key_3 Key_4 Key_5 Key_LeftGui
  Key_Backtick Key_Q Key_W Key_E Key_R Key_T Key_Tab
  Key_CapsLock Key_A Key_S Key_D Key_F Key_G
  Key_LeftAlt Key_Z Key_X Key_C Key_V Key_B Key_Escape
  Key_LeftControl Key_Backspace Key_Backspace Key_LeftShift
  (ShiftToLayer SYMBOL)

  Key_RightGui Key_6 Key_7 Key_8 Key_9 Key_0 (LockLayer NUMPAD)
  Key_Enter Key_Y Key_U Key_I Key_O Key_P Key_Equals
  Key_H Key_J Key_K Key_L Key_Semicolon Key_Quote
  Key_RightAlt Key_N Key_M Key_Comma Key_Period Key_Slash Key_Minus
  Key_RightShift Key_Spacebar Key_Spacebar Key_RightControl
  (ShiftToLayer NAVIGATION).

Definition keymap_SYMBOL : list Key := KEYMAP_STACKED
  ___ Key_F1 Key_F2 Key_F3 Key_F4 Key_F5 Key_F6
  ___ (LSHIFT Key_4) (LSHIFT Key_2) Key_LeftParen Key_RightParen
      (LSHIFT Key_1) ___
  ___ (LSHIFT Key_5) (LSHIFT Key_3) Key_LeftCurlyBracket
      Key_RightCurlyBracket (LSHIFT Key_Equals)
  ___ ___ XXX Key_LeftBracket Key_LeftBracket XXX XXX
  ___ Key_Delete Key_Delete ___
  XXX

  Key_F7 Key_F8 Key_F9 Key_F10 Key_F11 Key_F12 ___
  (LCTRL Key_Enter) Key_Equals Key_Minus (LSHIFT Key_Comma)
      (LSHIFT Key_Period) XXX ___
  Key_Minus (LSHIFT Key_8) (LSHIFT Key_7) Key_Pipe ___ ___
  ___ ___ Key_Backslash Key_Slash ___ ___ ___
  ___ ___ (LSHIFT Key_Minus) ___
  (ShiftToLayer SPECIAL).

Definition keymap_NAVIGATION : list Key := KEYMAP_STACKED
  ___ Key_F1 Key_F2 Key_F3 Key_F4 Key_F5 Key_F6
  ___ (LSHIFT Key_4) (LSHIFT Key_2) Key_LeftParen Key_RightParen
      (LSHIFT Key_1) ___
  ___ (LSHIFT Key_5) (LSHIFT Key_3) Key_LeftCurlyBracket
      Key_RightCurlyBracket (LSHIFT Key_Equals)
  ___ ___ XXX Key_LeftBracket Key_RightBracket XXX XXX
  ___ Key_Delete Key_Delete ___
  (ShiftToLayer SPECIAL)

  Key_F7 Key_F8 Key_F9 Key_F10 Key_F11 Key_F12 ___
  (LCTRL Key_Enter) XXX XXX Key_UpArrow Key_LeftBracket Key_RightBracket ___
  ___ Key_LeftArrow Key_DownArrow Key_RightArrow ___ ___
  ___ ___ Key_Home XXX Key_End XXX ___
  ___ ___ (LSHIFT Key_Minus) ___
  XXX.

Definition keymap_GAMING : list Key := KEYMAP_STACKED
  Key_Esc Key_1 Key_2 Key_3 Key_4 Key_5 Key_LeftGui
  XXX Key_Backtick Key_Q Key_W Key_E Key_R Key_T
  XXX Key_CapsLock Key_A Key_S Key_D Key_F
  XXX Key_LeftAlt Key_Z Key_X Key_C Key_V Key_B
  Key_LeftControl Key_Backspace Key_Backspace Key_LeftShift
  (ShiftToLayer SYMBOL)

  Key_RightGui Key_6 Key_7 Key_8 Key_9 Key_0 (LockLayer PRIMARY)
  Key_Enter Key_Y Key_U Key_I Key_O Key_P Key_Equals
  Key_H Key_J Key_K Key_L Key_Semicolon Key_Quote
  Key_RightAlt Key_N Key_M Key_Comma Key_Period Key_Slash Key_Minus
  Key_RightShift Key_Spacebar Key_Spacebar Key_RightControl
  (ShiftToLayer NAVIGATION).

Definition keymap_NUMPAD : list Key := KEYMAP_STACKED
  ___ ___ ___ ___ ___ ___ ___
  ___ ___ ___ ___ ___ ___ ___
  ___ ___ ___ ___ ___ ___
  ___ ___ ___ ___ ___ ___ ___
  ___ ___ ___ ___
  ___

  ___ ___ Key_7 Key_8 Key_9 Key_KeypadSubtract ___
  ___ ___ Key_4 Key_5 Key_6 Key_KeypadAdd ___
  ___ Key_1 Key_2 Key_3 Key_Equals ___
  ___ ___ Key_0 Key_Period Key_KeypadMultiply Key_KeypadDivide Key_Enter
  ___ ___ ___ ___
  ___.

(** [KEYMAPS(...)]: the table of the compiled-in keymaps, one per layer. *)
Definition keymaps (l : Layer) : list Key :=
  match l with
  | SPECIAL => keymap_SPECIAL
  | PRIMARY => keymap_PRIMARY
  | SYMBOL => keymap_SYMBOL
  | NAVIGATION => keymap_NAVIGATION
  | GAMING => keymap_GAMING
  | NUMPAD => keymap_NUMPAD
  end.

(** [Layer.getKeyFromPROGMEM]: the entry of the compiled-in table for a layer
    and a key address; nothing outside the table. *)
Definition getKeyFromPROGMEM (l : Layer) (a : KeyAddr) : option Key :=
  keymaps l !! KeyAddr_toInt a.

(** How many entries of a layer are transparent. *)
Definition transparent_count (l : Layer) : nat :=
  length (filter (fun k => is_transparent k = true) (keymaps l)).

(** ** The active layers *)

(** The active layers, written bottom first: the layer activated last is the
    last of the list and is consulted first. *)
Definition ActiveLayerStack : Type := list Layer.


(** Modelled from the spec: [Layer.activate] belongs to the firmware core;
    the stack is ordered by activation recency, so activating a layer puts
    it on top, and a layer is in the stack at most once. *)
Definition Layer_activate (l : Layer) (s : ActiveLayerStack)
  : ActiveLayerStack :=
  filter (fun l' => l' <> l) s ++ [l].

(** Activating several layers, one after the other. *)
Definition activate_all (ls : list Layer) (s : ActiveLayerStack)
  : ActiveLayerStack :=
  foldl (fun s' l => Layer_activate l s') s ls.

(** What [setup] does to the active layers: [Layer.activate(1)].  The line
    that would move to a default layer instead is commented out in the
    sketch, and the rest of [setup] configures plug-ins.  An index outside
    the enumeration activates nothing. *)
Definition setup (s : ActiveLayerStack) : ActiveLayerStack :=
  match layer_of_index 1 with
  | Some l => Layer_activate l s
  | None => s
  end.

(** ** Resolving a key address over the active layers *)

Inductive Resolution : Type :=
  | Resolved (k : Key)
  | NoKey
  | ConfigurationError.

Section Resolver.

(** [Layer.getKey]: where the entries come from.  The sketch switches it
    between the compiled-in table and the EEPROM one. *)
Variable getKey : Layer -> KeyAddr -> option Key.

(** Modelled from the spec: the walk over the active layers is the firmware
    core's, not the sketch's.  The layers are visited from the most recently
    activated one down; a blocked entry stops the walk with no key, a
    transparent one moves on to the next lower layer, any other entry is the
    result; running out of layers, or an address without an entry, is a
    configuration error. *)
Fixpoint walk (top_first : list Layer) (a : KeyAddr) : Resolution :=
  match top_first with
  | [] => ConfigurationError
  | l :: lower =>
      match getKey l a with
      | None => ConfigurationError
      | Some k =>
          if is_blocked k then NoKey
          else if is_transparent k then walk lower a
          else Resolved k
      end
  end.

(** Modelled from the spec: resolution is the walk from the top of the
    stack, which is the last layer of the list. *)
Definition resolve (s : ActiveLayerStack) (a : KeyAddr) : Resolution :=
  walk (reverse s) a.





End Resolver.

(** ** The firmware around the sketch *)

(** The operations of the core and of its plug-ins that the sketch calls
    without defining them. *)
Inductive Call : Type :=
  | Macros_type (text : string)
  | LEDControl_disable
  | LEDControl_enable
  | USBQuirks_toggleKeyboardProtocol
  | HardwareTestMode_runTests.

(** The values [Layer.getKey] can hold: the two lookups the sketch assigns,
    and any other function installed from outside the sketch. *)
Inductive GetKeySource : Type :=
  | Layer_getKeyFromPROGMEM
  | EEPROMKeymap_getKey
  | OtherLookup (id : nat).

#[global] Instance GetKeySource_eq_dec : EqDecision GetKeySource.
Proof. solve_decision. Defined.

(** What the handlers of the sketch can see and change: the calls made so
    far, in order; the function pointer [Layer.getKey]; the millisecond
    counter that [millis()] reads. *)
Record Firmware : Type := mkFirmware {
  calls : list Call;
  Layer_getKey : GetKeySource;
  clock : Z
}.

(** Handlers are state transformers over [Firmware]. *)
Definition M (A : Type) : Type := Firmware -> A * Firmware.

Definition ret {A : Type} (x : A) : M A := fun fw => (x, fw).

Definition bind {A B : Type} (m : M A) (f : A -> M B) : M B :=
  fun fw => let (x, fw') := m fw in f x fw'.

Notation "x <- m ;; k" := (bind m (fun x => k))
  (at level 100, m at next level, right associativity).
Notation "m ;;; k" := (bind m (fun _ => k))
  (at level 100, right associativity).

Definition exec {A : Type} (m : M A) (fw : Firmware) : Firmware := (m fw).2.
Definition eval {A : Type} (m : M A) (fw : Firmware) : A := (m fw).1.

Definition call (c : Call) : M unit :=
  fun fw => (tt, mkFirmware (calls fw ++ [c]) (Layer_getKey fw) (clock fw)).

Definition get_Layer_getKey : M GetKeySource :=
  fun fw => (Layer_getKey fw, fw).

Definition set_Layer_getKey (g : GetKeySource) : M unit :=
  fun fw => (tt, mkFirmware (calls fw) g (clock fw)).

Definition wrap8 (n : Z) : Z := n mod 2 ^ 8.
Definition wrap32 (n : Z) : Z := n mod 2 ^ 32.

(** [millis()]: the counter is an unsigned 32-bit number. *)
Definition millis : M Z := fun fw => (wrap32 (clock fw), fw).

(** The text typed so far, and whether the LEDs are on after the calls made
    so far, given how they were before. *)
Definition typed_text (cs : list Call) : string :=
  foldr (fun c acc => match c with
                      | Macros_type t => String.append t acc
                      | _ => acc
                      end) EmptyString cs.

Definition leds_enabled (before : bool) (cs : list Call) : bool :=
  foldl (fun on c => match c with
                     | LEDControl_disable => false
                     | LEDControl_enable => true
                     | _ => on
                     end) before cs.

(** ** Key events *)

(** A key as the core stores it: a key code and a byte of flags. *)
Record RawKey : Type := mkRawKey { keyCode : Z; flags : Z }.

Definition setKeyCode (c : Z) (k : RawKey) : RawKey :=
  mkRawKey (wrap8 c) (flags k).

Definition setFlags (f : Z) (k : RawKey) : RawKey :=
  mkRawKey (keyCode k) (wrap8 f).

Record KeyEvent : Type := mkKeyEvent {
  addr : KeyAddr;
  state : Z;
  key : RawKey
}.

(** The two bits of a key state, and the tests on them, as the core's
    key-state header defines them. *)
Definition WAS_PRESSED : Z := 1.  (* B00000001 *)
Definition IS_PRESSED : Z := 2.   (* B00000010 *)

Definition keyIsPressed (key_state : Z) : bool :=
  negb (Z.land key_state IS_PRESSED =? 0).

Definition keyWasPressed (key_state : Z) : bool :=
  negb (Z.land key_state WAS_PRESSED =? 0).

Definition keyToggledOn (key_state : Z) : bool :=
  keyIsPressed key_state && negb (keyWasPressed key_state).

Definition keyToggledOff (key_state : Z) : bool :=
  keyWasPressed key_state && negb (keyIsPressed key_state).

(** The key codes of the letters and digits in the USB HID keyboard table,
    which the core's key definitions follow: [Key_A] is 0x04, the letters
    run on to [Key_Z], the digits follow from [Key_1] to [Key_0]. *)
Definition Key_A_getKeyCode : Z := 0x04.

Definition letter_keys : list Key :=
  [ Key_A; Key_B; Key_C; Key_D; Key_E; Key_F; Key_G; Key_H; Key_I; Key_J;
    Key_K; Key_L; Key_M; Key_N; Key_O; Key_P; Key_Q; Key_R; Key_S; Key_T;
    Key_U; Key_V; Key_W; Key_X; Key_Y; Key_Z ].

Definition digit_keys : list Key :=
  [ Key_1; Key_2; Key_3; Key_4; Key_5; Key_6; Key_7; Key_8; Key_9; Key_0 ].

Definition alphanumeric_keys : list Key := letter_keys ++ digit_keys.

Definition alphanumeric_keyCodes : list (Key * Z) :=
  imap (fun i k => (k, Key_A_getKeyCode + Z.of_nat i)) alphanumeric_keys.

(** ** Macros *)

(** [enum { MACRO_VERSION_INFO, MACRO_ANY }] *)
Definition MACRO_VERSION_INFO : Z := 0.
Definition MACRO_ANY : Z := 1.

(** What [macroAction] hands back: no macro, or a sequence for the core to
    play. *)
Inductive macro_t : Type :=
  | MACRO_NONE
  | MACRO_SEQUENCE (steps : list Z).

Section Macros.

(** The version string is supplied by the build, not by the sketch. *)
Variable KALEIDOSCOPE_FIRMWARE_VERSION : string.

Definition versionInfoMacro (key_state : Z) : M unit :=
  if keyToggledOn key_state then
    call (Macros_type "Keyboardio Model 100 - Firmware version ") ;;;
    call (Macros_type KALEIDOSCOPE_FIRMWARE_VERSION)
  else ret tt.

(** The event is passed by reference; the handler gives back what it leaves
    in it. *)
Definition anyKeyMacro (event : KeyEvent) : M KeyEvent :=
  if keyToggledOn (state event) then
    now <- millis ;;
    let k1 := setKeyCode (Key_A_getKeyCode + wrap8 (now mod 36)) (key event) in
    let k2 := setFlags 0 k1 in
    ret (mkKeyEvent (addr event) (state event) k2)
  else ret event.

Definition macroAction (macro_id : Z) (event : KeyEvent)
  : M (macro_t * KeyEvent) :=
  event' <- (if macro_id =? MACRO_VERSION_INFO then
               versionInfoMacro (state event) ;;; ret event
             else if macro_id =? MACRO_ANY then
               anyKeyMacro event
             else ret event) ;;
  ret (MACRO_NONE, event').

(** The events one held key sees after it toggled on, each with the key
    state and the value of the millisecond counter at that moment; the key
    of the event is carried from one to the next. *)
Fixpoint anyKey_follow (k : RawKey) (a : KeyAddr) (later : list (Z * Z))
    (fw : Firmware) : RawKey :=
  match later with
  | [] => k
  | (key_state, now) :: rest =>
      let fw' := mkFirmware (calls fw) (Layer_getKey fw) now in
      let (event', fw'') := anyKeyMacro (mkKeyEvent a key_state k) fw' in
      anyKey_follow (key event') a rest fw''
  end.

End Macros.

(** The text the version macro types in all: the name of the firmware, then
    the version. *)
Definition version_info_text (version : string) : string :=
  String.append "Keyboardio Model 100 - Firmware version " version.

(** ** Host power management *)

Inductive HostPowerManagement_Event : Type :=
  | Suspend
  | Sleep
  | Resume.

Definition toggleLedsOnSuspendResume (event : HostPowerManagement_Event)
  : M unit :=
  match event with
  | Suspend | Sleep => call LEDControl_disable
  | Resume => call LEDControl_enable
  end.

Definition hostPowerManagementEventHandler
    (event : HostPowerManagement_Event) : M unit :=
  toggleLedsOnSuspendResume event.

(** ** Magic combos *)

(** [enum { COMBO_TOGGLE_NKRO_MODE, COMBO_ENTER_TEST_MODE }] *)
Definition COMBO_TOGGLE_NKRO_MODE : Z := 0.
Definition COMBO_ENTER_TEST_MODE : Z := 1.

Definition toggleKeyboardProtocol (combo_index : Z) : M unit :=
  call USBQuirks_toggleKeyboardProtocol.

Definition toggleKeymapSource (combo_index : Z) : M unit :=
  g <- get_Layer_getKey ;;
  if decide (g = Layer_getKeyFromPROGMEM) then
    set_Layer_getKey EEPROMKeymap_getKey
  else
    set_Layer_getKey Layer_getKeyFromPROGMEM.

Definition enterHardwareTestMode (combo_index : Z) : M unit :=
  call HardwareTestMode_runTests.

Record Combo : Type := mkCombo {
  action : Z -> M unit;
  keys : list KeyAddr
}.

(** [USE_MAGIC_COMBOS(...)], in the order of the declaration. *)
Definition magic_combos : list Combo :=
  [ mkCombo toggleKeyboardProtocol [R3C6; R2C6; R3C7];
    mkCombo enterHardwareTestMode [R3C6; R0C0; R0C6];
    mkCombo toggleKeymapSource [R3C6; R0C0; R3C7] ].

(** Modelled from the spec: one look of the matcher at the keyboard, which
    the MagicCombo plug-in takes and the sketch does not: the set of pressed
    keys, which the event source supplies, and whether the keys went down
    within the coincidence window, which the core decides. *)
Record Scan : Type := mkScan {
  pressed : gset KeyAddr;
  in_window : bool
}.

(** The keys of a combo as a set: the order of the keys does not matter. *)
Definition chord (c : Combo) : gset KeyAddr := list_to_set (keys c).

(** Modelled from the spec: a combo of the plug-in's matcher is satisfied
    when its keys are a subset of the pressed set. *)
Definition satisfied (p : gset KeyAddr) (c : Combo) : bool :=
  bool_decide (chord c ⊆ p).

(** Modelled from the spec: the chord of a combo of the plug-in's matcher is
    fully released when none of its keys is pressed. *)
Definition released (p : gset KeyAddr) (c : Combo) : bool :=
  bool_decide (chord c ∩ p = ∅).

(** Modelled from the spec: the tie-break of the plug-in's matcher, the
    first combo, in the order of the declaration, whose chord is down. *)
Fixpoint first_satisfied (p : gset KeyAddr) (i : nat) (cs : list Combo)
  : option nat :=
  match cs with
  | [] => None
  | c :: rest => if satisfied p c then Some i
                 else first_satisfied p (S i) rest
  end.

Section ComboMatcher.

Variable combos : list Combo.

(** Modelled from the spec: the matcher is the MagicCombo plug-in's, not the
    sketch's.  Its state is the latch: the combo that has fired (or whose
    attempt came too late) and whose chord has not been fully released
    since.  A chord fires when it is found down with the latch open, and
    only the first such chord in the order of the declaration; nothing
    fires again before the latched chord is released. *)
Definition unlatch (latch : option nat) (p : gset KeyAddr) : option nat :=
  match latch with
  | None => None
  | Some i =>
      match combos !! i with
      | Some c => if released p c then None else Some i
      | None => None
      end
  end.

(** Modelled from the spec: one step of the plug-in's matcher, giving the
    new latch and the combo to fire, if any.  A chord completed outside the
    window does not fire and has to be released before a new attempt. *)
Definition combo_step (latch : option nat) (s : Scan)
  : option nat * option nat :=
  match unlatch latch (pressed s) with
  | Some i => (Some i, None)
  | None =>
      match first_satisfied (pressed s) 0 combos with
      | Some i => (Some i, if in_window s then Some i else None)
      | None => (None, None)
      end
  end.

(** Modelled from the spec: the plug-in's matcher run over successive
    scans, giving the latch at the end and the combos fired, in order; the
    actions, which are the sketch's, act on the firmware. *)
Fixpoint run_combos (latch : option nat) (scans : list Scan)
  : M (option nat * list nat) :=
  match scans with
  | [] => ret (latch, [])
  | s :: rest =>
      let (latch', fire) := combo_step latch s in
      match fire ≫= (fun i => (fun c => (i, c)) <$> combos !! i) with
      | Some (i, c) =>
          action c (Z.of_nat i) ;;;
          r <- run_combos latch' rest ;;
          ret (r.1, i :: r.2)
      | None => run_combos latch' rest
      end
  end.

End ComboMatcher.

(** The chord of the hardware test combo, and the scan that finds exactly
    this chord down, in time. *)
Definition test_chord : gset KeyAddr := {[ R3C6; R0C0; R0C6 ]}.

Definition test_chord_down : Scan := mkScan test_chord true.

(** ** The palette and the colormaps *)

(** The names of the colours of the EGA palette, in the order of the palette. *)
Inductive Color : Type :=
  | BLACK | BLUE | GREEN | CYAN | RED | MAGENTA | ORANGE | LIGHT_GRAY
  | DARK_GRAY | BRIGHT_BLUE | BRIGHT_GREEN | BRIGHT_CYAN | BRIGHT_RED
  | BRIGHT_MAGENTA | YELLOW | WHITE.

#[global] Instance Color_eq_dec : EqDecision Color.
Proof. solve_decision. Defined.

Definition color_index (c : Color) : nat :=
  match c with
  | BLACK => 0 | BLUE => 1 | GREEN => 2 | CYAN => 3
  | RED => 4 | MAGENTA => 5 | ORANGE => 6 | LIGHT_GRAY => 7
  | DARK_GRAY => 8 | BRIGHT_BLUE => 9 | BRIGHT_GREEN => 10
  | BRIGHT_CYAN => 11 | BRIGHT_RED => 12 | BRIGHT_MAGENTA => 13
  | YELLOW => 14 | WHITE => 15
  end%nat.

Definition all_colors : list Color :=
  [ BLACK; BLUE; GREEN; CYAN; RED; MAGENTA; ORANGE; LIGHT_GRAY;
    DARK_GRAY; BRIGHT_BLUE; BRIGHT_GREEN; BRIGHT_CYAN; BRIGHT_RED;
    BRIGHT_MAGENTA; YELLOW; WHITE ].

(** A colour as its three channels. *)
Record cRGB : Type := CRGB { crgb_r : Z; crgb_g : Z; crgb_b : Z }.

#[global] Instance cRGB_eq_dec : EqDecision cRGB.
Proof. solve_decision. Defined.

(** [PALETTE(...)] *)
Definition PALETTE : list cRGB :=
  [ CRGB 0x00 0x00 0x00;
    CRGB 0x00 0x00 0xaa;
    CRGB 0x00 0xaa 0x00;
    CRGB 0x00 0xaa 0xaa;
    CRGB 0xaa 0x00 0x00;
    CRGB 0xaa 0x00 0xaa;
    CRGB 0xFF 0xA5 0x00;
    CRGB 0xaa 0xaa 0xaa;
    CRGB 0x55 0x55 0x55;
    CRGB 0x55 0x55 0xff;
    CRGB 0x55 0xff 0x55;
    CRGB 0x55 0xff 0xff;
    CRGB 0xff 0x55 0x55;
    CRGB 0xff 0x55 0xff;
    CRGB 0xff 0xff 0x55;
    CRGB 0xff 0xff 0xff ].

(** Modelled from the spec: the macro [COLORMAP_STACKED] is the Colormap
    plug-in's, not the sketch's.  A colormap has the shape of a keymap, so
    the 64 colours are taken in the order of the physical layout and laid
    out as [KEYMAP_STACKED] lays out the keys: the colour and the key
    written at the same place of the two tables belong to the same
    switch. *)
Definition COLORMAP_STACKED
    (r0c0 r0c1 r0c2 r0c3 r0c4 r0c5 r0c6
     r1c0 r1c1 r1c2 r1c3 r1c4 r1c5 r1c6
     r2c0 r2c1 r2c2 r2c3 r2c4 r2c5
     r3c0 r3c1 r3c2 r3c3 r3c4 r3c5 r2c6
     r0c7 r1c7 r2c7 r3c7
     r3c6
     r0c9 r0c10 r0c11 r0c12 r0c13 r0c14 r0c15
     r1c9 r1c10 r1c11 r1c12 r1c13 r1c14 r1c15
     r2c10 r2c11 r2c12 r2c13 r2c14 r2c15
     r2c9 r3c10 r3c11 r3c12 r3c13 r3c14 r3c15
     r3c8 r2c8 r1c8 r0c8
     r3c9 : Color) : list Color :=
  [ r0c0; r0c1; r0c2; r0c3; r0c4; r0c5; r0c6; r0c7;
    r0c8; r0c9; r0c10; r0c11; r0c12; r0c13; r0c14; r0c15;
    r1c0; r1c1; r1c2; r1c3; r1c4; r1c5; r1c6; r1c7;
    r1c8; r1c9; r1c10; r1c11; r1c12; r1c13; r1c14; r1c15;
    r2c0; r2c1; r2c2; r2c3; r2c4; r2c5; r2c6; r2c7;
    r2c8; r2c9; r2c10; r2c11; r2c12; r2c13; r2c14; r2c15;
    r3c0; r3c1; r3c2; r3c3; r3c4; r3c5; r3c6; r3c7;
    r3c8; r3c9; r3c10; r3c11; r3c12; r3c13; r3c14; r3c15 ].

Definition colormap_SPECIAL : list Color := COLORMAP_STACKED
  BRIGHT_RED BLACK BLACK BLACK BLACK BLACK CYAN
  WHITE BLACK BLACK BLACK BLACK GREEN BLACK
  WHITE BLACK BLACK BLACK BLACK GREEN
  WHITE BLACK BLACK BLACK BLACK GREEN BLACK
  WHITE WHITE WHITE WHITE
  CYAN

  CYAN BLACK BLACK BLACK BLACK BLACK BRIGHT_RED
  WHITE BLACK BLACK BLACK BLACK BLACK BLACK
  BLACK GREEN BLACK GREEN BLACK BLACK
  WHITE BLACK BLACK BLACK BLACK BLACK RED
  WHITE WHITE WHITE WHITE
  CYAN.

Definition colormap_PRIMARY : list Color := COLORMAP_STACKED
  WHITE WHITE WHITE WHITE WHITE WHITE CYAN
  WHITE WHITE WHITE WHITE WHITE WHITE WHITE
  WHITE WHITE WHITE WHITE WHITE WHITE
  WHITE ORANGE WHITE WHITE WHITE WHITE WHITE
  WHITE WHITE WHITE WHITE
  CYAN

  CYAN WHITE WHITE WHITE WHITE WHITE MAGENTA
  WHITE WHITE WHITE WHITE WHITE WHITE WHITE
  WHITE WHITE WHITE WHITE WHITE WHITE
  WHITE WHITE WHITE WHITE WHITE ORANGE WHITE
  WHITE WHITE WHITE WHITE
  CYAN.

Definition colormap_SYMBOL : list Color := COLORMAP_STACKED
  WHITE BLUE BLUE BLUE BLUE BLUE CYAN
  WHITE BLUE BLUE BLUE BLUE BLUE BLUE
  WHITE BLUE BLUE BLUE BLUE BLUE
  WHITE BLUE BLUE BLUE BLUE BLUE BLUE
  WHITE WHITE WHITE WHITE
  CYAN

  CYAN BLUE BLUE BLUE BLUE BLUE MAGENTA
  WHITE BLUE BLUE BLUE BLUE BLUE BLUE
  BLUE BLUE BLUE BLUE BLUE BLUE
  WHITE BLUE BLUE BLUE BLUE BLUE BLUE
  WHITE WHITE WHITE WHITE
  YELLOW.

Definition colormap_NAVIGATION : list Color := COLORMAP_STACKED
  WHITE BLUE BLUE BLUE BLUE BLUE CYAN
  WHITE BLUE BLUE BLUE BLUE BLUE BLUE
  WHITE BLUE BLUE BLUE BLUE BLUE
  WHITE BLUE BLUE BLUE BLUE BLUE BLUE
  WHITE WHITE WHITE WHITE
  YELLOW

  CYAN BLUE BLUE BLUE BLUE BLUE MAGENTA
  WHITE BLUE BLUE RED BLUE BLUE BLUE
  BLUE RED RED RED BLUE BLUE
  WHITE BLUE RED BLACK RED BLACK WHITE
  WHITE WHITE WHITE WHITE
  CYAN.

Definition colormap_GAMING : list Color := COLORMAP_STACKED
  WHITE WHITE WHITE WHITE WHITE WHITE CYAN
  WHITE WHITE WHITE WHITE WHITE WHITE WHITE
  WHITE WHITE WHITE WHITE WHITE WHITE
  WHITE ORANGE WHITE WHITE WHITE WHITE WHITE
  WHITE WHITE WHITE WHITE
  CYAN

  CYAN WHITE WHITE WHITE WHITE WHITE MAGENTA
  WHITE WHITE WHITE WHITE WHITE WHITE WHITE
  WHITE WHITE WHITE WHITE WHITE WHITE
  WHITE WHITE WHITE WHITE WHITE ORANGE WHITE
  WHITE WHITE WHITE WHITE
  CYAN.

Definition colormap_NUMPAD : list Color := COLORMAP_STACKED
  WHITE WHITE WHITE WHITE WHITE WHITE CYAN
  WHITE WHITE WHITE WHITE WHITE WHITE WHITE
  WHITE WHITE WHITE WHITE WHITE WHITE
  WHITE WHITE WHITE WHITE WHITE WHITE WHITE
  WHITE WHITE WHITE WHITE
  CYAN

  CYAN WHITE MAGENTA MAGENTA MAGENTA MAGENTA MAGENTA
  WHITE WHITE MAGENTA MAGENTA MAGENTA MAGENTA WHITE
  WHITE MAGENTA MAGENTA MAGENTA MAGENTA WHITE
  WHITE WHITE MAGENTA MAGENTA MAGENTA MAGENTA MAGENTA
  WHITE WHITE WHITE WHITE
  CYAN.

(** [COLORMAPS(...)]: one colormap per layer. *)
Definition colormaps (l : Layer) : list Color :=
  match l with
  | SPECIAL => colormap_SPECIAL
  | PRIMARY => colormap_PRIMARY
  | SYMBOL => colormap_SYMBOL
  | NAVIGATION => colormap_NAVIGATION
  | GAMING => colormap_GAMING
  | NUMPAD => colormap_NUMPAD
  end.

(** The colour name a layer gives a switch, and the channels the palette
    gives that name. *)
Definition colormap_at (l : Layer) (a : KeyAddr) : option Color :=
  colormaps l !! KeyAddr_toInt a.

Definition palette_color (c : Color) : option cRGB :=
  PALETTE !! color_index c.


Definition is_byte (n : Z) : bool := (0 <=? n) && (n <? 256).

Definition brighten (c : cRGB) : cRGB :=
  CRGB (crgb_r c + 0x55) (crgb_g c + 0x55) (crgb_b c + 0x55).

(** ** Classes of keys *)

Definition layer_key_target (k : Key) : option Layer :=
  match k with
  | ShiftToLayer l | LockLayer l => Some l
  | _ => None
  end.

(** The layers that the layer keys of a layer lead to. *)
Definition layer_targets (l : Layer) : list Layer :=
  omap layer_key_target (keymaps l).

Definition layer_step (l l' : Layer) : Prop := l' ∈ layer_targets l.

Definition is_navigation_key (k : Key) : bool :=
  match k with
  | Key_LeftArrow | Key_RightArrow | Key_UpArrow | Key_DownArrow
  | Key_Home | Key_End => true
  | _ => false
  end.

Definition is_numpad_lock (k : Key) : bool :=
  match k with LockLayer NUMPAD => true | _ => false end.

Definition is_layer_shift (k : Key) : bool :=
  match k with ShiftToLayer _ => true | _ => false end.

Definition is_layer_lock (k : Key) : bool :=
  match k with LockLayer _ => true | _ => false end.

(** ** What [setup] configures *)

(** [QUKEYS(...)]: a layer, a key address and the key to act as when held. *)
Record Qukey : Type := mkQukey {
  qukey_layer : nat;
  qukey_addr : KeyAddr;
  qukey_alternate : Key
}.

Definition QUKEYS : list Qukey :=
  [ mkQukey 0 (mkKeyAddr 3 1) Key_LeftControl;
    mkQukey 0 (mkKeyAddr 3 14) Key_RightControl ].

(** [HardwareTestMode.setActionKey(R3C6)] *)
Definition HardwareTestMode_actionKey : KeyAddr := R3C6.

(** ** Handlers called again and again *)

(** A handler called once for each of a list of inputs, in order. *)
Fixpoint for_each {A : Type} (handler : A -> M unit) (inputs : list A)
  : M unit :=
  match inputs with
  | [] => ret tt
  | x :: rest => handler x ;;; for_each handler rest
  end.

(** A text written [n] times over. *)
Fixpoint repeat_text (n : nat) (text : string) : string :=
  match n with
  | O => EmptyString
  | S n' => String.append text (repeat_text n' text)
  end.

Definition toggled_on_count (key_states : list Z) : nat :=
  length (filter (fun s => keyToggledOn s = true) key_states).

(** The call the power handler makes for an event. *)
Definition led_call (event : HostPowerManagement_Event) : Call :=
  match event with
  | Suspend | Sleep => LEDControl_disable
  | Resume => LEDControl_enable
  end.

(** * Facts *)

(** ** The walk over the active layers *)

Section ResolverFacts.

Variable getKey : Layer -> KeyAddr -> option Key.

Lemma resolve_snoc (s : ActiveLayerStack) (l : Layer) (a : KeyAddr) :
  resolve getKey (s ++ [l]) a = walk getKey (l :: reverse s) a.
Proof. unfold resolve. by rewrite reverse_snoc. Qed.

Lemma resolve_blocked (s : ActiveLayerStack) (l : Layer) (a : KeyAddr) :
  getKey l a = Some Key_NoKey -> resolve getKey (s ++ [l]) a = NoKey.
Proof. intros Hk. rewrite resolve_snoc. simpl. by rewrite Hk. Qed.

Lemma resolve_transparent (s : ActiveLayerStack) (l : Layer) (a : KeyAddr) :
  getKey l a = Some Key_Transparent ->
  resolve getKey (s ++ [l]) a = resolve getKey s a.
Proof. intros Hk. rewrite resolve_snoc. simpl. by rewrite Hk. Qed.


End ResolverFacts.

(** ** The compiled-in keymaps *)

Lemma keymaps_length (l : Layer) : length (keymaps l) = 64%nat.
Proof. by destruct l. Qed.




Lemma PRIMARY_transparent_count : transparent_count PRIMARY = 0%nat.
Proof. reflexivity. Qed.

Lemma PRIMARY_binds_keys :
  Forall (fun k => is_transparent k = false /\ is_blocked k = false)
         (keymaps PRIMARY).
Proof. repeat (apply Forall_cons_2; [by split|]). apply Forall_nil_2. Qed.


(** The number of transparent entries of each layer, in the order of the
    layers: only PRIMARY and GAMING have none. *)
Lemma transparent_counts :
  map transparent_count declared_layers
  = [14; 0; 20; 19; 0; 47]%nat.
Proof. reflexivity. Qed.

(** ** Activation *)

Lemma Layer_activate_elem (l : Layer) (s : ActiveLayerStack) :
  l ∈ Layer_activate l s.
Proof. unfold Layer_activate. set_solver. Qed.

Lemma Layer_activate_keeps (l l' : Layer) (s : ActiveLayerStack) :
  l' ∈ s -> l' ∈ Layer_activate l s.
Proof.
  unfold Layer_activate. intros Hin.
  destruct (decide (l' = l)) as [->|Hne]; [set_solver|].
  apply elem_of_app. left. apply list_elem_of_filter. by split.
Qed.

Lemma setup_activates_PRIMARY (s : ActiveLayerStack) : PRIMARY ∈ setup s.
Proof. apply Layer_activate_elem. Qed.

Lemma activate_all_keeps (l : Layer) (ls : list Layer)
    (s : ActiveLayerStack) :
  l ∈ s -> l ∈ activate_all ls s.
Proof.
  revert s. induction ls as [|l' ls IH]; intros s Hin; [done|].
  simpl. apply IH. by apply Layer_activate_keeps.
Qed.

(** Every stack built from the one [setup] leaves by activating further
    layers contains PRIMARY. *)
Lemma PRIMARY_stays_active (ls : list Layer) (boot : ActiveLayerStack) :
  PRIMARY ∈ activate_all ls (setup boot).
Proof. apply activate_all_keeps, setup_activates_PRIMARY. Qed.

(** ** Blocked and transparent entries of the upper layer *)

(** C1, as the claim states its example: at address (0, 3) the SYMBOL layer
    holds [Key_F3], not a blocked entry, and PRIMARY holds [Key_3], not
    [Key_E]; over the stack [PRIMARY; SYMBOL] the address resolves to
    [Key_F3].  So the example of the claim does not hold. *)
Lemma blocked_example_at_0_3_fails :
  getKeyFromPROGMEM SYMBOL (mkKeyAddr 0 3) = Some Key_F3 /\
  getKeyFromPROGMEM PRIMARY (mkKeyAddr 0 3) = Some Key_3 /\
  resolve getKeyFromPROGMEM [PRIMARY; SYMBOL] (mkKeyAddr 0 3)
    = Resolved Key_F3 /\
  ~ (getKeyFromPROGMEM SYMBOL (mkKeyAddr 0 3) = Some Key_NoKey /\
     getKeyFromPROGMEM PRIMARY (mkKeyAddr 0 3) = Some Key_E /\
     resolve getKeyFromPROGMEM [PRIMARY; SYMBOL] (mkKeyAddr 0 3) = NoKey).
Proof.
  repeat split; try reflexivity.
  intros (H & _). discriminate H.
Qed.

(** No change of address saves the example: wherever PRIMARY holds [Key_E],
    SYMBOL is not blocked. *)
Lemma SYMBOL_not_blocked_over_Key_E (a : KeyAddr) :
  getKeyFromPROGMEM PRIMARY a = Some Key_E ->
  getKeyFromPROGMEM SYMBOL a = Some Key_LeftParen.
Proof.
  unfold getKeyFromPROGMEM. generalize (KeyAddr_toInt a) as i. intros i Hi.
  assert (Hlt : (i < 64)%nat)
    by (rewrite <- (keymaps_length PRIMARY); by eapply lookup_lt_Some).
  do 64 (destruct i as [|i]; [cbv in Hi |- *; congruence|]).
  lia.
Qed.

(** C1, amended: over the stack [PRIMARY; SYMBOL], and over SYMBOL on top of
    any other lower layers, every address whose SYMBOL entry is blocked
    resolves to no key, whatever the layers below bind there; in particular
    SYMBOL's entry at (3, 2) is blocked and that address resolves to no key
    although PRIMARY defines [Key_X] there. *)
Theorem blocked_masks_lower_layer (lower : ActiveLayerStack) (a : KeyAddr) :
  getKeyFromPROGMEM SYMBOL a = Some Key_NoKey ->
  resolve getKeyFromPROGMEM [PRIMARY; SYMBOL] a = NoKey /\
  resolve getKeyFromPROGMEM (lower ++ [SYMBOL]) a = NoKey /\
  getKeyFromPROGMEM SYMBOL (mkKeyAddr 3 2) = Some Key_NoKey /\
  getKeyFromPROGMEM PRIMARY (mkKeyAddr 3 2) = Some Key_X /\
  resolve getKeyFromPROGMEM [PRIMARY; SYMBOL] (mkKeyAddr 3 2) = NoKey.
Proof.
  intros Hb. split; [|split; [|by repeat split]].
  - by apply (resolve_blocked getKeyFromPROGMEM [PRIMARY]).
  - by apply resolve_blocked.
Qed.

Lemma blocked_masks_lower_layer_witness :
  getKeyFromPROGMEM SYMBOL (mkKeyAddr 3 5) = Some Key_NoKey /\
  getKeyFromPROGMEM PRIMARY (mkKeyAddr 3 5) = Some Key_B /\
  resolve getKeyFromPROGMEM [PRIMARY; SYMBOL] (mkKeyAddr 3 5) = NoKey.
Proof.
  split; [reflexivity|]. split; [reflexivity|].
  apply (blocked_masks_lower_layer [SPECIAL; PRIMARY] (mkKeyAddr 3 5)).
  reflexivity.
Defined.

(** C2: over the stack [PRIMARY; NAVIGATION] an address whose NAVIGATION
    entry is transparent resolves as it does over the layers below alone,
    that is, to PRIMARY's entry; in particular NAVIGATION's entry at (3, 0)
    is transparent, PRIMARY's is [Key_LeftAlt], and the address resolves to
    [Key_LeftAlt]. *)
Theorem transparent_defers_to_lower_layer (a : KeyAddr) :
  getKeyFromPROGMEM NAVIGATION a = Some Key_Transparent ->
  resolve getKeyFromPROGMEM [PRIMARY; NAVIGATION] a
    = resolve getKeyFromPROGMEM [PRIMARY] a /\
  (forall k, getKeyFromPROGMEM PRIMARY a = Some k ->
             resolve getKeyFromPROGMEM [PRIMARY; NAVIGATION] a = Resolved k) /\
  (forall lower : ActiveLayerStack,
     resolve getKeyFromPROGMEM (lower ++ [NAVIGATION]) a
       = resolve getKeyFromPROGMEM lower a) /\
  getKeyFromPROGMEM NAVIGATION (mkKeyAddr 3 0) = Some Key_Transparent /\
  getKeyFromPROGMEM PRIMARY (mkKeyAddr 3 0) = Some Key_LeftAlt /\
  resolve getKeyFromPROGMEM [PRIMARY; NAVIGATION] (mkKeyAddr 3 0)
    = Resolved Key_LeftAlt.
Proof.
  intros Ht.
  assert (Hdefer : forall lower : ActiveLayerStack,
             resolve getKeyFromPROGMEM (lower ++ [NAVIGATION]) a
             = resolve getKeyFromPROGMEM lower a)
    by (intros lower; by apply resolve_transparent).
  split; [apply (Hdefer [PRIMARY])|].
  split; [|split; [done|by repeat split]].
  intros k Hk.
  change [PRIMARY; NAVIGATION] with ([PRIMARY] ++ [NAVIGATION]).
  rewrite (Hdefer [PRIMARY]).
  destruct (Forall_lookup_1 _ _ _ _ PRIMARY_binds_keys Hk) as [Hnt Hnb].
  unfold resolve. simpl. by rewrite Hk, Hnb, Hnt.
Qed.

Lemma transparent_defers_to_lower_layer_witness :
  getKeyFromPROGMEM NAVIGATION (mkKeyAddr 3 0) = Some Key_Transparent /\
  resolve getKeyFromPROGMEM [PRIMARY; NAVIGATION] (mkKeyAddr 3 0)
    = resolve getKeyFromPROGMEM [PRIMARY] (mkKeyAddr 3 0).
Proof.
  split; [reflexivity|].
  apply (transparent_defers_to_lower_layer (mkKeyAddr 3 0)). reflexivity.
Defined.

(** ** Resolution always ends *)



(** ** The macros *)

Lemma append_assoc (s1 s2 s3 : string) :
  String.append (String.append s1 s2) s3
  = String.append s1 (String.append s2 s3).
Proof.
  induction s1 as [|ch s1 IH]; [reflexivity|].
  exact (f_equal (String ch) IH).
Qed.

Lemma typed_text_app (cs1 cs2 : list Call) :
  typed_text (cs1 ++ cs2) = String.append (typed_text cs1) (typed_text cs2).
Proof.
  induction cs1 as [|c cs1 IH]; simpl; [done|].
  fold (typed_text (cs1 ++ cs2)). fold (typed_text cs1).
  rewrite IH. destruct c; try done. by rewrite append_assoc.
Qed.

Lemma keyToggledOn_not_Off (key_state : Z) :
  keyToggledOn key_state = true -> keyToggledOff key_state = false.
Proof.
  unfold keyToggledOn, keyToggledOff.
  destruct (keyIsPressed key_state), (keyWasPressed key_state); done.
Qed.

Lemma anyKeyMacro_not_toggled_on (event : KeyEvent) (fw : Firmware) :
  keyToggledOn (state event) = false -> anyKeyMacro event fw = (event, fw).
Proof. intros Hoff. unfold anyKeyMacro. by rewrite Hoff. Qed.

Lemma anyKey_follow_stable (k : RawKey) (a : KeyAddr) (later : list (Z * Z))
    (fw : Firmware) :
  Forall (fun sn => keyToggledOn sn.1 = false) later ->
  anyKey_follow k a later fw = k.
Proof.
  intros Hlater. revert fw.
  induction Hlater as [|[key_state now] rest Hoff _ IH]; intros fw; [done|].
  simpl. rewrite anyKeyMacro_not_toggled_on by done. simpl. apply IH.
Qed.

Lemma alphanumeric_keyCodes_range (n : Z) :
  0 <= n < 36 ->
  exists k, k ∈ alphanumeric_keys /\
            (k, Key_A_getKeyCode + n) ∈ alphanumeric_keyCodes.
Proof.
  intros Hn.
  destruct (lookup_lt_is_Some_2 alphanumeric_keys (Z.to_nat n)) as [k Hk].
  { change (length alphanumeric_keys) with 36%nat. lia. }
  exists k. split; [by eapply list_elem_of_lookup_2|].
  unfold alphanumeric_keyCodes. apply elem_of_lookup_imap.
  exists (Z.to_nat n), k. split; [|done].
  by rewrite Z2Nat.id by lia.
Qed.

(** C5: every toggled-on activation of the Any key, at whatever value of the
    millisecond counter and whatever key the event carried, leaves in the
    event the key code of one of the 36 keys of the alphabet, 26 letters and
    10 digits, and flags cleared to zero; the handler selects only then, so
    over the later events of the held key, none of them a toggle-on, the
    selected key stays as it is. *)
Theorem anyKey_selects_alphanumeric (event : KeyEvent) (fw : Firmware) :
  keyToggledOn (state event) = true ->
  let event' := eval (anyKeyMacro event) fw in
  length letter_keys = 26%nat /\
  length digit_keys = 10%nat /\
  NoDup alphanumeric_keys /\
  (exists k, k ∈ alphanumeric_keys /\
             (k, keyCode (key event')) ∈ alphanumeric_keyCodes) /\
  flags (key event') = 0 /\
  exec (anyKeyMacro event) fw = fw /\
  (forall (later : list (Z * Z)) (fw' : Firmware),
     Forall (fun sn => keyToggledOn sn.1 = false) later ->
     anyKey_follow (key event') (addr event) later fw' = key event').
Proof.
  intros Hon. simpl.
  split; [reflexivity|]. split; [reflexivity|].
  split.
  { unfold alphanumeric_keys, letter_keys, digit_keys. simpl.
    repeat (apply NoDup_cons; split;
            [rewrite ?elem_of_cons, elem_of_nil; intros ?;
             repeat (match goal with H : _ \/ _ |- _ => destruct H end);
             congruence|]).
    apply NoDup_nil_2. }
  unfold eval, exec, anyKeyMacro. rewrite Hon.
  unfold bind, millis, ret. simpl.
  set (n := wrap32 (clock fw) mod 36).
  assert (Hn : 0 <= n < 36) by (subst n; apply Z.mod_pos_bound; lia).
  assert (Hcode : wrap8 (Key_A_getKeyCode + wrap8 n) = Key_A_getKeyCode + n).
  { unfold wrap8, Key_A_getKeyCode.
    rewrite (Z.mod_small n) by lia. apply Z.mod_small. lia. }
  rewrite Hcode.
  split; [by apply alphanumeric_keyCodes_range|].
  split; [reflexivity|]. split; [by destruct fw|].
  intros later fw' Hlater. by apply anyKey_follow_stable.
Qed.

Lemma anyKey_selects_alphanumeric_witness :
  keyCode (key (eval (anyKeyMacro (mkKeyEvent R0C0 IS_PRESSED (mkRawKey 77 64)))
                     (mkFirmware [] Layer_getKeyFromPROGMEM 12345))) = 37 /\
  flags (key (eval (anyKeyMacro (mkKeyEvent R0C0 IS_PRESSED (mkRawKey 77 64)))
                   (mkFirmware [] Layer_getKeyFromPROGMEM 12345))) = 0.
Proof.
  split; [reflexivity|].
  apply (anyKey_selects_alphanumeric
           (mkKeyEvent R0C0 IS_PRESSED (mkRawKey 77 64))
           (mkFirmware [] Layer_getKeyFromPROGMEM 12345)).
  reflexivity.
Defined.

(** C6: on a toggle-on the version macro types its fixed text, the name of
    the firmware followed by the version, once and makes no other call; on
    any other key state, held or released, it does nothing. *)
Theorem versionInfo_emits_once_on_toggle_on (version : string)
    (key_state : Z) (fw : Firmware) :
  (keyToggledOn key_state = true ->
   calls (exec (versionInfoMacro version key_state) fw)
     = calls fw ++
       [Macros_type "Keyboardio Model 100 - Firmware version ";
        Macros_type version] /\
   typed_text (calls (exec (versionInfoMacro version key_state) fw))
     = String.append (typed_text (calls fw)) (version_info_text version) /\
   Layer_getKey (exec (versionInfoMacro version key_state) fw)
     = Layer_getKey fw) /\
  (keyToggledOn key_state = false ->
   exec (versionInfoMacro version key_state) fw = fw).
Proof.
  unfold versionInfoMacro. split; intros Hst; rewrite Hst.
  - unfold exec, bind, call. simpl.
    rewrite <- app_assoc. simpl. split; [done|]. split; [|done].
    rewrite typed_text_app. f_equal.
    unfold version_info_text, typed_text, foldr. f_equal.
    clear. induction version as [|ch v IH]; [reflexivity|].
    exact (f_equal (String ch) IH).
  - reflexivity.
Qed.

Lemma versionInfo_emits_once_on_toggle_on_witness :
  typed_text (calls (exec (versionInfoMacro "1.0" IS_PRESSED)
                          (mkFirmware [] Layer_getKeyFromPROGMEM 0)))
    = "Keyboardio Model 100 - Firmware version 1.0"%string /\
  exec (versionInfoMacro "1.0" (Z.lor IS_PRESSED WAS_PRESSED))
       (mkFirmware [] Layer_getKeyFromPROGMEM 0)
    = mkFirmware [] Layer_getKeyFromPROGMEM 0 /\
  exec (versionInfoMacro "1.0" WAS_PRESSED)
       (mkFirmware [] Layer_getKeyFromPROGMEM 0)
    = mkFirmware [] Layer_getKeyFromPROGMEM 0.
Proof.
  split; [|split].
  - apply (versionInfo_emits_once_on_toggle_on "1.0" IS_PRESSED
             (mkFirmware [] Layer_getKeyFromPROGMEM 0)).
    reflexivity.
  - apply (versionInfo_emits_once_on_toggle_on "1.0"
             (Z.lor IS_PRESSED WAS_PRESSED)
             (mkFirmware [] Layer_getKeyFromPROGMEM 0)).
    reflexivity.
  - apply (versionInfo_emits_once_on_toggle_on "1.0" WAS_PRESSED
             (mkFirmware [] Layer_getKeyFromPROGMEM 0)).
    reflexivity.
Defined.

(** C7: for a macro id that is neither [MACRO_VERSION_INFO] nor [MACRO_ANY]
    the dispatcher does nothing: it returns normally, with the event and the
    firmware as they were and no call made. *)
Theorem macroAction_unknown_id_is_noop (version : string) (macro_id : Z)
    (event : KeyEvent) (fw : Firmware) :
  macro_id <> MACRO_VERSION_INFO ->
  macro_id <> MACRO_ANY ->
  macroAction version macro_id event fw = ((MACRO_NONE, event), fw).
Proof.
  intros Hv Ha. unfold macroAction.
  apply Z.eqb_neq in Hv. apply Z.eqb_neq in Ha. by rewrite Hv, Ha.
Qed.

Lemma macroAction_unknown_id_is_noop_witness :
  macroAction "1.0" 2 (mkKeyEvent R0C0 IS_PRESSED (mkRawKey 77 64))
              (mkFirmware [] Layer_getKeyFromPROGMEM 12345)
  = ((MACRO_NONE, mkKeyEvent R0C0 IS_PRESSED (mkRawKey 77 64)),
     mkFirmware [] Layer_getKeyFromPROGMEM 12345).
Proof.
  apply (macroAction_unknown_id_is_noop "1.0" 2); unfold MACRO_VERSION_INFO,
    MACRO_ANY; lia.
Defined.

(** C10: whatever the macro id and the event, [macroAction] returns
    [MACRO_NONE]. *)
Theorem macroAction_returns_MACRO_NONE (version : string) (macro_id : Z)
    (event : KeyEvent) (fw : Firmware) :
  (eval (macroAction version macro_id event) fw).1 = MACRO_NONE.
Proof.
  unfold eval, macroAction.
  set (handler := if macro_id =? MACRO_VERSION_INFO then _ else _).
  unfold bind at 1. by destruct (handler fw).
Qed.

(** ** Host power management *)

(** C8: on every host power-management event the handler makes exactly one
    call, [LEDControl.disable] on Suspend and on Sleep, [LEDControl.enable]
    on Resume, so that the LEDs are off after the former and on after the
    latter, however they were before; it changes nothing else and keeps no
    state of its own. *)
Theorem power_event_only_switches_leds (event : HostPowerManagement_Event)
    (fw : Firmware) :
  let fw' := exec (hostPowerManagementEventHandler event) fw in
  calls fw' = calls fw ++ [match event with
                           | Suspend | Sleep => LEDControl_disable
                           | Resume => LEDControl_enable
                           end] /\
  (forall before : bool,
     leds_enabled before (calls fw') = match event with
                                       | Suspend | Sleep => false
                                       | Resume => true
                                       end) /\
  Layer_getKey fw' = Layer_getKey fw /\
  clock fw' = clock fw /\
  typed_text (calls fw') = typed_text (calls fw).
Proof.
  simpl. unfold hostPowerManagementEventHandler, toggleLedsOnSuspendResume.
  split; [by destruct event|]. split.
  { intros before. unfold leds_enabled.
    destruct event; unfold exec, call; simpl; by rewrite foldl_app. }
  split; [by destruct event|]. split; [by destruct event|].
  assert (Hr : forall s : string, String.append s EmptyString = s).
  { intros s. induction s as [|ch s IH]; [reflexivity|].
    exact (f_equal (String ch) IH). }
  destruct event; unfold exec, call; simpl;
    by rewrite typed_text_app, Hr.
Qed.

(** ** Toggling the source of the keymap *)

(** C9: when [Layer.getKey] is one of the two lookups, the compiled-in one
    or the EEPROM one, one call of [toggleKeymapSource] switches it to the
    other of the two and nothing else changes, and two calls in succession
    give back the firmware as it was. *)
Theorem toggleKeymapSource_twice_restores (i j : Z) (fw : Firmware) :
  Layer_getKey fw = Layer_getKeyFromPROGMEM \/
  Layer_getKey fw = EEPROMKeymap_getKey ->
  exec (toggleKeymapSource j) (exec (toggleKeymapSource i) fw) = fw /\
  (Layer_getKey fw = Layer_getKeyFromPROGMEM ->
   Layer_getKey (exec (toggleKeymapSource i) fw) = EEPROMKeymap_getKey) /\
  (Layer_getKey fw = EEPROMKeymap_getKey ->
   Layer_getKey (exec (toggleKeymapSource i) fw) = Layer_getKeyFromPROGMEM) /\
  Layer_getKey (exec (toggleKeymapSource i) fw) <> Layer_getKey fw /\
  calls (exec (toggleKeymapSource i) fw) = calls fw /\
  clock (exec (toggleKeymapSource i) fw) = clock fw.
Proof.
  destruct fw as [cs g t]. simpl.
  intros [-> | ->]; unfold exec, toggleKeymapSource, bind; simpl;
    repeat split; congruence.
Qed.

Lemma toggleKeymapSource_twice_restores_witness :
  exec (toggleKeymapSource 2)
       (exec (toggleKeymapSource 2) (mkFirmware [] EEPROMKeymap_getKey 0))
  = mkFirmware [] EEPROMKeymap_getKey 0.
Proof.
  apply (toggleKeymapSource_twice_restores 2 2
           (mkFirmware [] EEPROMKeymap_getKey 0)).
  right. reflexivity.
Defined.

(** From any other lookup the first call falls back to the compiled-in one,
    and the second does not bring the other lookup back. *)
Lemma toggleKeymapSource_from_other_lookup (i j : Z) (n : nat) :
  Layer_getKey (exec (toggleKeymapSource j)
                  (exec (toggleKeymapSource i)
                     (mkFirmware [] (OtherLookup n) 0)))
  = EEPROMKeymap_getKey.
Proof. reflexivity. Qed.

(** ** The hardware test combo *)

Lemma chord_test_combo :
  chord (mkCombo enterHardwareTestMode [R3C6; R0C0; R0C6]) = test_chord.
Proof. unfold chord, test_chord. simpl. set_solver. Qed.

Lemma first_satisfied_partial (p : gset KeyAddr) :
  p ⊂ test_chord -> first_satisfied p 0 magic_combos = None.
Proof.
  intros [Hsub Hstrict]. unfold magic_combos, first_satisfied, satisfied.
  rewrite !bool_decide_eq_false_2; [done|..]; unfold chord; simpl.
  - intros Hc. assert (Hin : R3C7 ∈ test_chord).
    { apply Hsub, Hc. set_unfold. tauto. }
    by vm_compute in Hin.
  - intros Hc. apply Hstrict. intros k Hk. apply Hc.
    unfold test_chord in Hk. set_unfold. set_unfold in Hk. tauto.
  - intros Hc. assert (Hin : R2C6 ∈ test_chord).
    { apply Hsub, Hc. set_unfold. tauto. }
    by vm_compute in Hin.
Qed.

Lemma first_satisfied_released (p : gset KeyAddr) :
  test_chord ∩ p = ∅ -> first_satisfied p 0 magic_combos = None.
Proof.
  intros Hfree. unfold magic_combos, first_satisfied, satisfied.
  assert (Hno : R3C6 ∉ p) by (unfold test_chord in Hfree; set_solver).
  rewrite !bool_decide_eq_false_2; [done|..]; unfold chord; simpl;
    set_solver.
Qed.

Lemma combo_step_partial (s : Scan) :
  pressed s ⊂ test_chord ->
  combo_step magic_combos None s = (None, None).
Proof.
  intros Hp. unfold combo_step, unlatch.
  by rewrite first_satisfied_partial.
Qed.

Lemma combo_step_latched (s : Scan) :
  test_chord ∩ pressed s <> ∅ ->
  combo_step magic_combos (Some 1%nat) s = (Some 1%nat, None).
Proof.
  intros Hp. unfold combo_step, unlatch, released.
  change (magic_combos !! 1%nat)
    with (Some (mkCombo enterHardwareTestMode [R3C6; R0C0; R0C6])).
  cbv beta iota. rewrite chord_test_combo.
  by rewrite bool_decide_eq_false_2.
Qed.

Lemma combo_step_released (s : Scan) :
  test_chord ∩ pressed s = ∅ ->
  combo_step magic_combos (Some 1%nat) s = (None, None).
Proof.
  intros Hp. unfold combo_step, unlatch, released.
  change (magic_combos !! 1%nat)
    with (Some (mkCombo enterHardwareTestMode [R3C6; R0C0; R0C6])).
  cbv beta iota. rewrite chord_test_combo.
  rewrite bool_decide_eq_true_2 by done.
  by rewrite first_satisfied_released.
Qed.

Lemma combo_step_test_chord_down :
  combo_step magic_combos None test_chord_down = (Some 1%nat, Some 1%nat).
Proof. by vm_compute. Qed.

Lemma run_combos_partial (approach : list Scan) (fw : Firmware) :
  Forall (fun s => pressed s ⊂ test_chord) approach ->
  run_combos magic_combos None approach fw = ((None, []), fw).
Proof.
  induction 1 as [|s rest Hs _ IH]; [done|].
  simpl. by rewrite combo_step_partial.
Qed.

Lemma run_combos_latched (held : list Scan) (fw : Firmware) :
  Forall (fun s => test_chord ∩ pressed s <> ∅) held ->
  run_combos magic_combos (Some 1%nat) held fw = ((Some 1%nat, []), fw).
Proof.
  induction 1 as [|s rest Hs _ IH]; [done|].
  simpl. by rewrite combo_step_latched.
Qed.

Lemma run_combos_completion (approach : list Scan) (fw : Firmware) :
  Forall (fun s => pressed s ⊂ test_chord) approach ->
  run_combos magic_combos None (approach ++ [test_chord_down]) fw
  = ((Some 1%nat, [1%nat]), exec (enterHardwareTestMode 1) fw).
Proof.
  induction 1 as [|s rest Hs _ IH].
  - simpl. rewrite combo_step_test_chord_down. reflexivity.
  - simpl. by rewrite combo_step_partial.
Qed.

(** C4: the chord of R3C6, R0C0 and R0C6 is bound to
    [enterHardwareTestMode].  Starting with the latch open, once the keys
    have gone down, in whatever order and through whatever partial chords,
    the scan that finds the chord complete fires the action, which runs the
    hardware tests, exactly once.  With the latch closed, nothing fires
    while a key of the chord stays down, all three held included.  After a
    scan that finds all three released, completing the chord again fires
    the action again, once. *)
Theorem test_combo_fires_once_per_completion
    (approach held : list Scan) (free : Scan) (fw : Firmware) :
  Forall (fun s => pressed s ⊂ test_chord) approach ->
  Forall (fun s => test_chord ∩ pressed s <> ∅) held ->
  test_chord ∩ pressed free = ∅ ->
  (exists c, magic_combos !! 1%nat = Some c /\
             keys c = [R3C6; R0C0; R0C6] /\
             action c = enterHardwareTestMode /\
             chord c = test_chord) /\
  calls (exec (enterHardwareTestMode 1) fw)
    = calls fw ++ [HardwareTestMode_runTests] /\
  run_combos magic_combos None (approach ++ [test_chord_down]) fw
    = ((Some 1%nat, [1%nat]), exec (enterHardwareTestMode 1) fw) /\
  run_combos magic_combos (Some 1%nat) held fw = ((Some 1%nat, []), fw) /\
  run_combos magic_combos (Some 1%nat)
             (free :: approach ++ [test_chord_down]) fw
    = ((Some 1%nat, [1%nat]), exec (enterHardwareTestMode 1) fw).
Proof.
  intros Happroach Hheld Hfree.
  split.
  { eexists. split; [reflexivity|].
    split; [reflexivity|]. split; [reflexivity|]. apply chord_test_combo. }
  split; [reflexivity|].
  split; [by apply run_combos_completion|].
  split; [by apply run_combos_latched|].
  cbn [run_combos]. rewrite combo_step_released by done.
  by apply run_combos_completion.
Qed.

Lemma test_combo_fires_once_per_completion_witness :
  run_combos magic_combos None
    ([mkScan {[R3C6]} true; mkScan {[R3C6; R0C0]} true] ++ [test_chord_down])
    (mkFirmware [] Layer_getKeyFromPROGMEM 0)
  = ((Some 1%nat, [1%nat]),
     mkFirmware [HardwareTestMode_runTests] Layer_getKeyFromPROGMEM 0).
Proof.
  apply (test_combo_fires_once_per_completion
           [mkScan {[R3C6]} true; mkScan {[R3C6; R0C0]} true]
           [test_chord_down; mkScan {[R0C0]} false]
           (mkScan ∅ true)
           (mkFirmware [] Layer_getKeyFromPROGMEM 0)).
  - repeat (apply Forall_cons_2; [apply (bool_decide_unpack _); by vm_compute|]).
    apply Forall_nil_2.
  - repeat (apply Forall_cons_2; [apply (bool_decide_unpack _); by vm_compute|]).
    apply Forall_nil_2.
  - apply (bool_decide_unpack _). by vm_compute.
Defined.

(** * More of the sketch *)

(** ** What the handlers leave alone *)

Lemma append_empty_r (t : string) : String.append t EmptyString = t.
Proof.
  induction t as [|ch t IH]; [reflexivity|].
  exact (f_equal (String ch) IH).
Qed.

Lemma exec_bind_unit {A : Type} (m : M unit) (k : M A) (fw : Firmware) :
  exec (m ;;; k) fw = exec k (exec m fw).
Proof. unfold exec, bind. by destruct (m fw). Qed.

Lemma versionInfoMacro_exec (version : string) (key_state : Z)
    (fw : Firmware) :
  exec (versionInfoMacro version key_state) fw
  = if keyToggledOn key_state
    then mkFirmware
           (calls fw ++
            [Macros_type "Keyboardio Model 100 - Firmware version ";
             Macros_type version])
           (Layer_getKey fw) (clock fw)
    else fw.
Proof.
  unfold versionInfoMacro. destruct (keyToggledOn key_state); [|done].
  unfold exec, bind, call. simpl. by rewrite <- app_assoc.
Qed.

Lemma anyKeyMacro_exec (event : KeyEvent) (fw : Firmware) :
  exec (anyKeyMacro event) fw = fw.
Proof.
  unfold anyKeyMacro. destruct (keyToggledOn (state event)); [|done].
  by destruct fw.
Qed.

(** X1: whatever the macro id, the event and the firmware, [macroAction]
    gives back an event with the same address and the same key state, does
    not touch [Layer.getKey] or the clock, and only ever adds calls of
    [Macros.type] to those already made. *)
Theorem macroAction_preserves (version : string) (macro_id : Z)
    (event : KeyEvent) (fw : Firmware) :
  let event' := (eval (macroAction version macro_id event) fw).2 in
  let fw' := exec (macroAction version macro_id event) fw in
  addr event' = addr event /\
  state event' = state event /\
  Layer_getKey fw' = Layer_getKey fw /\
  clock fw' = clock fw /\
  exists more, calls fw' = calls fw ++ more /\
               Forall (fun c => exists text, c = Macros_type text) more.
Proof.
  unfold eval, exec, macroAction. simpl.
  destruct (macro_id =? MACRO_VERSION_INFO).
  - unfold bind at 1 2.
    pose proof (versionInfoMacro_exec version (state event) fw) as Hv.
    unfold exec in Hv. unfold bind.
    destruct (versionInfoMacro version (state event) fw) as [[] fw1].
    simpl in *. subst fw1.
    destruct (keyToggledOn (state event)); simpl.
    + repeat split. eexists. split; [reflexivity|].
      repeat (apply Forall_cons_2; [by eexists|]). apply Forall_nil_2.
    + repeat split. exists []. by rewrite app_nil_r.
  - destruct (macro_id =? MACRO_ANY).
    + unfold bind, anyKeyMacro.
      destruct (keyToggledOn (state event)); simpl.
      * repeat split. exists []. by rewrite app_nil_r.
      * repeat split. exists []. by rewrite app_nil_r.
    + unfold bind, ret. simpl.
      repeat split. exists []. by rewrite app_nil_r.
Qed.

(** X2: each recognised macro keeps to its own side: unless the id is
    [MACRO_ANY] the event comes back as it went in, and unless the id is
    [MACRO_VERSION_INFO] the firmware is left as it was. *)
Theorem macroAction_sides (version : string) (macro_id : Z)
    (event : KeyEvent) (fw : Firmware) :
  (macro_id <> MACRO_ANY ->
   (eval (macroAction version macro_id event) fw).2 = event) /\
  (macro_id <> MACRO_VERSION_INFO ->
   exec (macroAction version macro_id event) fw = fw).
Proof.
  unfold eval, exec, macroAction. split; intros Hid.
  - destruct (macro_id =? MACRO_VERSION_INFO) eqn:Hv.
    + unfold bind.
      by destruct (versionInfoMacro version (state event) fw).
    + apply Z.eqb_neq in Hid. by rewrite Hid.
  - apply Z.eqb_neq in Hid. rewrite Hid.
    destruct (macro_id =? MACRO_ANY); [|done].
    pose proof (anyKeyMacro_exec event fw) as Ha. unfold exec in Ha.
    unfold bind. by destruct (anyKeyMacro event fw).
Qed.

Lemma macroAction_sides_witness :
  (eval (macroAction "1.0" MACRO_VERSION_INFO
           (mkKeyEvent R0C0 IS_PRESSED (mkRawKey 77 64)))
        (mkFirmware [] Layer_getKeyFromPROGMEM 7)).2
  = mkKeyEvent R0C0 IS_PRESSED (mkRawKey 77 64) /\
  exec (macroAction "1.0" MACRO_ANY
          (mkKeyEvent R0C0 IS_PRESSED (mkRawKey 77 64)))
       (mkFirmware [] Layer_getKeyFromPROGMEM 7)
  = mkFirmware [] Layer_getKeyFromPROGMEM 7.
Proof.
  split.
  - by apply (macroAction_sides "1.0" MACRO_VERSION_INFO).
  - by apply (macroAction_sides "1.0" MACRO_ANY).
Defined.

(** ** The Any key and the clock *)

Lemma anyKeyMacro_keyCode (event : KeyEvent) (fw : Firmware) :
  keyToggledOn (state event) = true ->
  key (eval (anyKeyMacro event) fw)
  = mkRawKey (Key_A_getKeyCode + (clock fw mod 2 ^ 32) mod 36) 0.
Proof.
  intros Hon. unfold eval, anyKeyMacro. rewrite Hon.
  unfold bind, millis, ret, setFlags, setKeyCode, wrap32. simpl.
  set (n := (clock fw mod 2 ^ 32) mod 36).
  assert (Hn : 0 <= n < 36) by (subst n; apply Z.mod_pos_bound; lia).
  unfold wrap8, Key_A_getKeyCode.
  rewrite (Z.mod_small n) by lia.
  rewrite (Z.mod_small (4 + n)) by lia.
  by rewrite Z.mod_0_l by lia.
Qed.

(** X3: on a toggle-on the Any key writes key code
    [Key_A + (clock mod 2^32) mod 36] and flags 0 into the event; neither
    cast to a byte ever truncates, and the code lies between those of
    [Key_A] and [Key_0]. *)
Theorem anyKey_closed_form (event : KeyEvent) (fw : Firmware) :
  keyToggledOn (state event) = true ->
  key (eval (anyKeyMacro event) fw)
    = mkRawKey (Key_A_getKeyCode + (clock fw mod 2 ^ 32) mod 36) 0 /\
  Key_A_getKeyCode <= keyCode (key (eval (anyKeyMacro event) fw))
    <= Key_A_getKeyCode + 35.
Proof.
  intros Hon. rewrite anyKeyMacro_keyCode by done. split; [done|].
  simpl. pose proof (Z.mod_pos_bound (clock fw mod 2 ^ 32) 36). lia.
Qed.

Lemma anyKey_closed_form_witness :
  key (eval (anyKeyMacro (mkKeyEvent R0C0 IS_PRESSED (mkRawKey 77 64)))
            (mkFirmware [] Layer_getKeyFromPROGMEM (2 ^ 32 + 35)))
  = mkRawKey 39 0.
Proof.
  apply (anyKey_closed_form (mkKeyEvent R0C0 IS_PRESSED (mkRawKey 77 64))
           (mkFirmware [] Layer_getKeyFromPROGMEM (2 ^ 32 + 35))).
  reflexivity.
Defined.

(** X4: the key the Any key selects depends on the clock alone: two
    toggle-on events, whatever their addresses and the keys they carry, and
    whatever else the firmware holds, get the same key when the clock is the
    same. *)
Theorem anyKey_depends_on_clock_only (e1 e2 : KeyEvent)
    (fw1 fw2 : Firmware) :
  keyToggledOn (state e1) = true ->
  keyToggledOn (state e2) = true ->
  clock fw1 = clock fw2 ->
  key (eval (anyKeyMacro e1) fw1) = key (eval (anyKeyMacro e2) fw2).
Proof.
  intros H1 H2 Hc. rewrite !anyKeyMacro_keyCode by done. by rewrite Hc.
Qed.

Lemma anyKey_depends_on_clock_only_witness :
  key (eval (anyKeyMacro (mkKeyEvent R0C0 IS_PRESSED (mkRawKey 77 64)))
            (mkFirmware [] Layer_getKeyFromPROGMEM 99))
  = key (eval (anyKeyMacro (mkKeyEvent R3C7 IS_PRESSED (mkRawKey 4 8)))
              (mkFirmware [LEDControl_enable] EEPROMKeymap_getKey 99)).
Proof.
  by apply (anyKey_depends_on_clock_only
              (mkKeyEvent R0C0 IS_PRESSED (mkRawKey 77 64))
              (mkKeyEvent R3C7 IS_PRESSED (mkRawKey 4 8))
              (mkFirmware [] Layer_getKeyFromPROGMEM 99)
              (mkFirmware [LEDControl_enable] EEPROMKeymap_getKey 99)).
Defined.

(** X5: every one of the 36 keys of the alphabet can come up: for each
    letter or digit there is a value of the clock below 36 at which a
    toggle-on selects its key code. *)
Theorem anyKey_reaches_every_key (k : Key) (code : Z) (event : KeyEvent)
    (fw : Firmware) :
  (k, code) ∈ alphanumeric_keyCodes ->
  keyToggledOn (state event) = true ->
  exists now, 0 <= now < 36 /\
    key (eval (anyKeyMacro event)
              (mkFirmware (calls fw) (Layer_getKey fw) now))
    = mkRawKey code 0.
Proof.
  intros Hin Hon. unfold alphanumeric_keyCodes in Hin.
  apply elem_of_lookup_imap in Hin as (i & k' & Heq & Hi).
  injection Heq as -> ->.
  apply lookup_lt_Some in Hi.
  change (length alphanumeric_keys) with 36%nat in Hi.
  exists (Z.of_nat i). split; [lia|].
  rewrite anyKeyMacro_keyCode by done. simpl.
  rewrite (Z.mod_small (Z.of_nat i)) by lia.
  by rewrite Z.mod_small by lia.
Qed.

Lemma anyKey_reaches_every_key_witness :
  exists now, 0 <= now < 36 /\
    key (eval (anyKeyMacro (mkKeyEvent R0C0 IS_PRESSED (mkRawKey 77 64)))
              (mkFirmware [] Layer_getKeyFromPROGMEM now))
    = mkRawKey 39 0.
Proof.
  apply (anyKey_reaches_every_key Key_0 39
           (mkKeyEvent R0C0 IS_PRESSED (mkRawKey 77 64))
           (mkFirmware [] Layer_getKeyFromPROGMEM 0)).
  - unfold alphanumeric_keyCodes. apply elem_of_lookup_imap.
    by exists 35%nat, Key_0.
  - reflexivity.
Defined.

(** X6: from one millisecond to the next the selection moves one key on,
    from [Key_A] through the letters and the digits, and from [Key_0] back
    to [Key_A], as long as the 32-bit clock does not wrap in between. *)
Theorem anyKey_steps_with_clock (event : KeyEvent) (fw : Firmware) :
  keyToggledOn (state event) = true ->
  0 <= clock fw < 2 ^ 32 - 1 ->
  let here := keyCode (key (eval (anyKeyMacro event) fw)) in
  let next := keyCode (key (eval (anyKeyMacro event)
                (mkFirmware (calls fw) (Layer_getKey fw) (clock fw + 1)))) in
  next = if here =? Key_A_getKeyCode + 35 then Key_A_getKeyCode
         else here + 1.
Proof.
  intros Hon Hc. simpl. rewrite !anyKeyMacro_keyCode by done.
  cbn [keyCode clock].
  change (2 ^ 32) with 4294967296 in *.
  rewrite !(Z.mod_small _ 4294967296) by lia.
  pose proof (Z.mod_pos_bound (clock fw) 36 ltac:(lia)) as Hb.
  pose proof (Z.div_mod (clock fw) 36 ltac:(lia)) as Hd.
  destruct (Key_A_getKeyCode + clock fw mod 36 =? Key_A_getKeyCode + 35)
    eqn:Hlast.
  - apply Z.eqb_eq in Hlast.
    assert (Hm : (clock fw + 1) mod 36 = 0); [|lia].
    symmetry. apply (Z.mod_unique_pos _ _ (clock fw / 36 + 1)); lia.
  - apply Z.eqb_neq in Hlast.
    assert (Hm : (clock fw + 1) mod 36 = clock fw mod 36 + 1); [|lia].
    symmetry. apply (Z.mod_unique_pos _ _ (clock fw / 36)); lia.
Qed.

Lemma anyKey_steps_with_clock_witness :
  keyCode (key (eval (anyKeyMacro
                        (mkKeyEvent R0C0 IS_PRESSED (mkRawKey 77 64)))
                     (mkFirmware [] Layer_getKeyFromPROGMEM 36)))
  = Key_A_getKeyCode.
Proof.
  apply (anyKey_steps_with_clock
           (mkKeyEvent R0C0 IS_PRESSED (mkRawKey 77 64))
           (mkFirmware [] Layer_getKeyFromPROGMEM 35)).
  - reflexivity.
  - simpl. lia.
Defined.

(** ** The version key over time *)

Lemma versionInfoMacro_typed (version : string) (key_state : Z)
    (fw : Firmware) :
  typed_text (calls (exec (versionInfoMacro version key_state) fw))
  = String.append (typed_text (calls fw))
      (if keyToggledOn key_state then version_info_text version
       else EmptyString).
Proof.
  rewrite versionInfoMacro_exec.
  destruct (keyToggledOn key_state); [|by rewrite append_empty_r].
  cbn [calls]. rewrite typed_text_app. f_equal.
  unfold version_info_text, typed_text, foldr. f_equal.
  apply append_empty_r.
Qed.

(** X7: over any sequence of key states of the version key, the text typed
    is the version text once for every toggle-on in the sequence and
    nothing for the other states; a key pressed, held and released types it
    once. *)
Theorem versionInfo_types_once_per_toggle_on (version : string)
    (key_states : list Z) (fw : Firmware) :
  typed_text (calls (exec (for_each (versionInfoMacro version) key_states) fw))
  = String.append (typed_text (calls fw))
      (repeat_text (toggled_on_count key_states) (version_info_text version)).
Proof.
  revert fw. induction key_states as [|st rest IH]; intros fw.
  - simpl. by rewrite append_empty_r.
  - cbn [for_each]. rewrite exec_bind_unit, IH, versionInfoMacro_typed.
    rewrite append_assoc. f_equal.
    unfold toggled_on_count. rewrite filter_cons.
    destruct (keyToggledOn st) eqn:Hst.
    + rewrite decide_True by done. reflexivity.
    + rewrite decide_False by done. reflexivity.
Qed.

(** ** Host power events over time *)

Lemma power_handler_exec (event : HostPowerManagement_Event)
    (fw : Firmware) :
  exec (hostPowerManagementEventHandler event) fw
  = mkFirmware (calls fw ++ [led_call event]) (Layer_getKey fw) (clock fw).
Proof. by destruct event. Qed.

Lemma power_events_exec (events : list HostPowerManagement_Event)
    (fw : Firmware) :
  exec (for_each hostPowerManagementEventHandler events) fw
  = mkFirmware (calls fw ++ map led_call events) (Layer_getKey fw)
               (clock fw).
Proof.
  revert fw. induction events as [|ev rest IH]; intros fw.
  - simpl. rewrite app_nil_r. by destruct fw.
  - cbn [for_each]. rewrite exec_bind_unit, IH, power_handler_exec.
    cbn [calls Layer_getKey clock map]. by rewrite <- app_assoc.
Qed.

Lemma typed_text_led_calls (events : list HostPowerManagement_Event) :
  typed_text (map led_call events) = EmptyString.
Proof. induction events as [|[] rest IH]; done. Qed.

(** X8: after any sequence of host power events the LEDs are on exactly
    when the last event was a Resume, whatever came before and however the
    LEDs were at the start. *)
Theorem power_events_last_event_decides
    (events : list HostPowerManagement_Event)
    (last_event : HostPowerManagement_Event) (before : bool)
    (fw : Firmware) :
  last events = Some last_event ->
  leds_enabled before
    (calls (exec (for_each hostPowerManagementEventHandler events) fw))
  = match last_event with
    | Resume => true
    | Suspend | Sleep => false
    end.
Proof.
  intros Hlast. apply last_Some in Hlast as [earlier ->].
  rewrite power_events_exec. cbn [calls].
  unfold leds_enabled. rewrite map_app, !foldl_app.
  by destruct last_event.
Qed.

Lemma power_events_last_event_decides_witness :
  leds_enabled true
    (calls (exec (for_each hostPowerManagementEventHandler
                    [Resume; Sleep; Resume; Suspend])
                 (mkFirmware [] Layer_getKeyFromPROGMEM 0)))
  = false.
Proof.
  by apply (power_events_last_event_decides
              [Resume; Sleep; Resume; Suspend] Suspend true
              (mkFirmware [] Layer_getKeyFromPROGMEM 0)).
Defined.

(** X9: a sequence of host power events makes one LED call per event, in
    the order of the events, and changes nothing else: no text is typed,
    [Layer.getKey] and the clock stay as they were. *)
Theorem power_events_only_led_calls
    (events : list HostPowerManagement_Event) (fw : Firmware) :
  let fw' := exec (for_each hostPowerManagementEventHandler events) fw in
  calls fw' = calls fw ++ map led_call events /\
  length (calls fw') = (length (calls fw) + length events)%nat /\
  typed_text (calls fw') = typed_text (calls fw) /\
  Layer_getKey fw' = Layer_getKey fw /\
  clock fw' = clock fw.
Proof.
  simpl. rewrite power_events_exec. cbn [calls Layer_getKey clock].
  split; [done|]. split; [by rewrite length_app, length_map|].
  split; [|done].
  by rewrite typed_text_app, typed_text_led_calls, append_empty_r.
Qed.

(** ** Toggling the source of the keymap, again and again *)

Lemma toggleKeymapSource_exec (i : Z) (fw : Firmware) :
  exec (toggleKeymapSource i) fw
  = mkFirmware (calls fw)
      (if decide (Layer_getKey fw = Layer_getKeyFromPROGMEM)
       then EEPROMKeymap_getKey else Layer_getKeyFromPROGMEM)
      (clock fw).
Proof.
  unfold exec, toggleKeymapSource, bind, get_Layer_getKey. simpl.
  by destruct (decide (Layer_getKey fw = Layer_getKeyFromPROGMEM)).
Qed.

(** X10: after [n + 1] calls of [toggleKeymapSource], from whatever lookup
    [Layer.getKey] held at the start, it holds the compiled-in lookup when
    the number of calls is even and it started there, or odd and it started
    elsewhere, and the EEPROM lookup otherwise. *)
Theorem toggleKeymapSource_parity (n : nat) (indexes : list Z)
    (fw : Firmware) :
  length indexes = S n ->
  Layer_getKey (exec (for_each toggleKeymapSource indexes) fw)
  = if Bool.eqb (Nat.even (S n))
         (bool_decide (Layer_getKey fw = Layer_getKeyFromPROGMEM))
    then Layer_getKeyFromPROGMEM
    else EEPROMKeymap_getKey.
Proof.
  revert n fw. induction indexes as [|i rest IH]; intros n fw Hlen; [done|].
  cbn [for_each]. rewrite exec_bind_unit.
  destruct rest as [|j rest'].
  - simpl in Hlen. injection Hlen as <-.
    cbn [for_each]. unfold exec at 1, ret. cbn [snd].
    rewrite toggleKeymapSource_exec. cbn [Layer_getKey].
    by destruct (decide (Layer_getKey fw = Layer_getKeyFromPROGMEM));
      [rewrite bool_decide_eq_true_2 | rewrite bool_decide_eq_false_2].
  - destruct n as [|m]; [done|].
    rewrite (IH m) by (simpl in *; lia).
    rewrite toggleKeymapSource_exec. cbn [Layer_getKey].
    change (Nat.even (S (S m))) with (Nat.even m).
    rewrite Nat.even_succ, <- Nat.negb_even.
    destruct (decide (Layer_getKey fw = Layer_getKeyFromPROGMEM));
      [rewrite (bool_decide_eq_true_2 (Layer_getKey fw = _)) by done
      |rewrite (bool_decide_eq_false_2 (Layer_getKey fw = _)) by done];
      by destruct (Nat.even m).
Qed.

Lemma toggleKeymapSource_parity_witness :
  Layer_getKey (exec (for_each toggleKeymapSource [2; 2; 2])
                     (mkFirmware [] (OtherLookup 7) 0))
  = Layer_getKeyFromPROGMEM.
Proof.
  by apply (toggleKeymapSource_parity 2 [2; 2; 2]
              (mkFirmware [] (OtherLookup 7) 0)).
Defined.

(** X11: once [toggleKeymapSource] has been called, [Layer.getKey] is one
    of the two lookups of the sketch for good: a lookup installed from
    outside is dropped by the first call and no number of further calls
    brings it back; the calls made so far and the clock are never
    touched. *)
Theorem toggleKeymapSource_drops_other_lookups (indexes : list Z)
    (fw : Firmware) :
  indexes <> [] ->
  let fw' := exec (for_each toggleKeymapSource indexes) fw in
  (Layer_getKey fw' = Layer_getKeyFromPROGMEM \/
   Layer_getKey fw' = EEPROMKeymap_getKey) /\
  (forall id, Layer_getKey fw' <> OtherLookup id) /\
  calls fw' = calls fw /\
  clock fw' = clock fw.
Proof.
  intros Hne. simpl.
  assert (Hkeep : forall ixs fw0,
            calls (exec (for_each toggleKeymapSource ixs) fw0) = calls fw0 /\
            clock (exec (for_each toggleKeymapSource ixs) fw0) = clock fw0).
  { intros ixs. induction ixs as [|i rest IH]; intros fw0; [done|].
    cbn [for_each]. rewrite exec_bind_unit.
    destruct (IH (exec (toggleKeymapSource i) fw0)) as [-> ->].
    by rewrite toggleKeymapSource_exec. }
  assert (Htwo : Layer_getKey (exec (for_each toggleKeymapSource indexes) fw)
                 = Layer_getKeyFromPROGMEM \/
                 Layer_getKey (exec (for_each toggleKeymapSource indexes) fw)
                 = EEPROMKeymap_getKey).
  { destruct indexes as [|i rest]; [done|].
    rewrite (toggleKeymapSource_parity (length rest)) by done.
    destruct (Bool.eqb _ _); [by left | by right]. }
  split; [done|]. split; [|apply Hkeep].
  intros id. by destruct Htwo as [-> | ->].
Qed.

Lemma toggleKeymapSource_drops_other_lookups_witness :
  Layer_getKey (exec (for_each toggleKeymapSource [2])
                     (mkFirmware [] (OtherLookup 7) 0))
    = Layer_getKeyFromPROGMEM \/
  Layer_getKey (exec (for_each toggleKeymapSource [2])
                     (mkFirmware [] (OtherLookup 7) 0))
    = EEPROMKeymap_getKey.
Proof.
  apply (toggleKeymapSource_drops_other_lookups [2]
           (mkFirmware [] (OtherLookup 7) 0)).
  discriminate.
Defined.

(** X12: [toggleKeymapSource] commutes with every other handler of the
    sketch that acts on the firmware: run before or after a combo action,
    the power handler or the version macro, the outcome is the same. *)
Theorem toggleKeymapSource_commutes (i j : Z) (version : string)
    (key_state : Z) (event : HostPowerManagement_Event) (fw : Firmware) :
  let toggle := exec (toggleKeymapSource i) in
  toggle (exec (toggleKeyboardProtocol j) fw)
    = exec (toggleKeyboardProtocol j) (toggle fw) /\
  toggle (exec (enterHardwareTestMode j) fw)
    = exec (enterHardwareTestMode j) (toggle fw) /\
  toggle (exec (hostPowerManagementEventHandler event) fw)
    = exec (hostPowerManagementEventHandler event) (toggle fw) /\
  toggle (exec (versionInfoMacro version key_state) fw)
    = exec (versionInfoMacro version key_state) (toggle fw).
Proof.
  cbv zeta. rewrite !power_handler_exec, !versionInfoMacro_exec.
  destruct (keyToggledOn key_state);
    rewrite !toggleKeymapSource_exec; repeat split; reflexivity.
Qed.

(** ** The tables, switch by switch *)

Lemma valid_in_all_key_addrs (a : KeyAddr) :
  KeyAddr_valid a = true -> a ∈ all_key_addrs.
Proof.
  unfold KeyAddr_valid, all_key_addrs. intros [Hr Hc]%andb_prop.
  apply Nat.ltb_lt in Hr. apply Nat.ltb_lt in Hc.
  apply list_elem_of_bind. exists (row a). split; [|apply elem_of_seq; lia].
  apply list_elem_of_bind. exists (col a). split; [|apply elem_of_seq; lia].
  destruct a. apply list_elem_of_singleton. reflexivity.
Qed.

(** A decidable property of key addresses holds all over the matrix as soon
    as it holds at each of the 64 addresses in turn. *)
Lemma for_all_key_addrs (P : KeyAddr -> Prop) `{!forall a, Decision (P a)} :
  bool_decide (Forall P all_key_addrs) ->
  forall a, KeyAddr_valid a = true -> P a.
Proof.
  intros HP%bool_decide_unpack a Hv.
  rewrite Forall_forall in HP. by apply HP, valid_in_all_key_addrs.
Qed.


(** X14: the layer keys tie the six layers together: starting from
    PRIMARY, and also from SPECIAL, every declared layer is reached by
    following layer keys from keymap to keymap, and no keymap holds a layer
    key that leads to its own layer. *)
Theorem layer_keys_reach_every_layer (l : Layer) :
  rtc layer_step PRIMARY l /\
  rtc layer_step SPECIAL l /\
  ~ layer_step l l.
Proof.
  assert (Hps : layer_step PRIMARY SYMBOL)
    by (unfold layer_step; apply (bool_decide_unpack _); by vm_compute).
  assert (Hpn : layer_step PRIMARY NAVIGATION)
    by (unfold layer_step; apply (bool_decide_unpack _); by vm_compute).
  assert (Hpp : layer_step PRIMARY NUMPAD)
    by (unfold layer_step; apply (bool_decide_unpack _); by vm_compute).
  assert (Hss : layer_step SYMBOL SPECIAL)
    by (unfold layer_step; apply (bool_decide_unpack _); by vm_compute).
  assert (Hsg : layer_step SPECIAL GAMING)
    by (unfold layer_step; apply (bool_decide_unpack _); by vm_compute).
  assert (Hgp : layer_step GAMING PRIMARY)
    by (unfold layer_step; apply (bool_decide_unpack _); by vm_compute).
  assert (Hfrom_P : forall l', rtc layer_step PRIMARY l').
  { assert (Hspecial : rtc layer_step PRIMARY SPECIAL)
      by (eapply rtc_l; [exact Hps|]; apply rtc_once; exact Hss).
    intros [].
    - exact Hspecial.
    - apply rtc_refl.
    - apply rtc_once. exact Hps.
    - apply rtc_once. exact Hpn.
    - eapply rtc_r; [exact Hspecial | exact Hsg].
    - apply rtc_once. exact Hpp. }
  split; [apply Hfrom_P|]. split.
  - eapply rtc_l; [exact Hsg|]. eapply rtc_l; [exact Hgp|]. apply Hfrom_P.
  - unfold layer_step. intros Hself. apply (bool_decide_pack _) in Hself.
    destruct l; by vm_compute in Hself.
Qed.

(** X15: every magic combo is a chord of three different switches of the
    matrix and contains Left Fn, R3C6, the action key [setup] gives the
    hardware test mode; no chord is contained in the chord of another
    combo, so that a chord held alone can stand for one combo only. *)
Theorem magic_combos_chords :
  Forall (fun c => length (keys c) = 3%nat /\
                   NoDup (keys c) /\
                   Forall (fun k => KeyAddr_valid k = true) (keys c) /\
                   HardwareTestMode_actionKey ∈ keys c) magic_combos /\
  (forall i j ci cj,
     magic_combos !! i = Some ci -> magic_combos !! j = Some cj ->
     chord ci ⊆ chord cj -> i = j).
Proof.
  split.
  - repeat (apply Forall_cons_2;
            [split; [reflexivity|]; split; [|split];
             apply (bool_decide_unpack _); by vm_compute|]).
    apply Forall_nil_2.
  - intros i j ci cj Hi Hj Hsub.
    destruct i as [|[|[|i]]]; [| | |done];
      (destruct j as [|[|[|j]]]; [| | |done]);
      injection Hi as <-; injection Hj as <-; try reflexivity;
      apply (bool_decide_pack _) in Hsub; by vm_compute in Hsub.
Qed.

(** ** The palette *)

(** X16: the palette has 16 entries, one for each colour name; every name
    looks up a colour whose three channels are bytes, and no two names
    share a colour. *)
Theorem palette_total_and_distinct (c : Color) :
  length PALETTE = 16%nat /\
  exists rgb, palette_color c = Some rgb /\
    is_byte (crgb_r rgb) && is_byte (crgb_g rgb) && is_byte (crgb_b rgb)
      = true /\
    forall c', palette_color c' = Some rgb -> c' = c.
Proof.
  split; [reflexivity|].
  destruct c; eexists; (split; [reflexivity|]); (split; [reflexivity|]);
    intros []; unfold palette_color; simpl; congruence.
Qed.

(** X17: the eight bright colours of the palette are the eight dark ones
    with 0x55 added to every channel, except for ORANGE, which is not the
    dark form of YELLOW. *)
Theorem palette_bright_is_dark_plus_0x55 (dark bright : Color) :
  color_index bright = (color_index dark + 8)%nat ->
  (dark <> ORANGE ->
   palette_color bright = brighten <$> palette_color dark) /\
  (dark = ORANGE ->
   bright = YELLOW /\
   palette_color bright <> brighten <$> palette_color dark).
Proof.
  intros Hidx.
  destruct dark, bright; try discriminate Hidx;
    (split; [intros Hd; first [reflexivity | by destruct Hd]
            |intros Hd; first [discriminate Hd | split; [reflexivity|]]]).
  unfold palette_color. simpl. discriminate.
Qed.

Lemma palette_bright_is_dark_plus_0x55_witness :
  palette_color BRIGHT_CYAN = brighten <$> palette_color CYAN.
Proof.
  apply (palette_bright_is_dark_plus_0x55 CYAN BRIGHT_CYAN);
    [reflexivity | discriminate].
Defined.



(** ** Colours that follow the keys *)

(** X19: on the NAVIGATION layer the red switches are exactly the switches
    that carry a navigation key: an arrow, Home or End. *)
Theorem NAVIGATION_red_marks_navigation_keys (a : KeyAddr) :
  KeyAddr_valid a = true ->
  colormap_at NAVIGATION a = Some RED <->
  is_navigation_key <$> getKeyFromPROGMEM NAVIGATION a = Some true.
Proof.
  revert a. refine (for_all_key_addrs _ _). by vm_compute.
Qed.

Lemma NAVIGATION_red_marks_navigation_keys_witness :
  colormap_at NAVIGATION (mkKeyAddr 3 13) = Some RED <->
  is_navigation_key <$> getKeyFromPROGMEM NAVIGATION (mkKeyAddr 3 13)
    = Some true.
Proof.
  by apply (NAVIGATION_red_marks_navigation_keys (mkKeyAddr 3 13)).
Defined.

(** X20: the NUMPAD layer leaves the left half of the keyboard, columns 0
    to 7, transparent, and its magenta switches are exactly the switches it
    binds a key to, together with the one where PRIMARY holds the key that
    locks the NUMPAD layer. *)
Theorem NUMPAD_magenta_marks_bound_keys (a : KeyAddr) :
  KeyAddr_valid a = true ->
  ((col a < 8)%nat ->
   is_transparent <$> getKeyFromPROGMEM NUMPAD a = Some true) /\
  (colormap_at NUMPAD a = Some MAGENTA <->
   is_transparent <$> getKeyFromPROGMEM NUMPAD a = Some false \/
   is_numpad_lock <$> getKeyFromPROGMEM PRIMARY a = Some true).
Proof.
  revert a. refine (for_all_key_addrs _ _). by vm_compute.
Qed.

Lemma NUMPAD_magenta_marks_bound_keys_witness :
  colormap_at NUMPAD (mkKeyAddr 0 15) = Some MAGENTA <->
  is_transparent <$> getKeyFromPROGMEM NUMPAD (mkKeyAddr 0 15) = Some false \/
  is_numpad_lock <$> getKeyFromPROGMEM PRIMARY (mkKeyAddr 0 15) = Some true.
Proof.
  by apply (NUMPAD_magenta_marks_bound_keys (mkKeyAddr 0 15)).
Defined.

(** X21: on PRIMARY, and on GAMING, whose colormap is the same, the orange
    switches are exactly the switches [setup] declares a Qukey for. *)
Theorem orange_marks_the_qukeys (a : KeyAddr) :
  KeyAddr_valid a = true ->
  (colormap_at PRIMARY a = Some ORANGE <-> a ∈ map qukey_addr QUKEYS) /\
  colormap_at GAMING a = colormap_at PRIMARY a.
Proof.
  revert a. refine (for_all_key_addrs _ _). by vm_compute.
Qed.

Lemma orange_marks_the_qukeys_witness :
  colormap_at PRIMARY (mkKeyAddr 3 14) = Some ORANGE <->
  mkKeyAddr 3 14 ∈ map qukey_addr QUKEYS.
Proof.
  by apply (orange_marks_the_qukeys (mkKeyAddr 3 14)).
Defined.

(** ** Where the layer keys sit *)

(** X22: on every layer the keys that shift to a layer sit on the two palm
    switches, R3C6 and R3C9, and nowhere else, and the keys that lock a
    layer sit on the top right switch, R0C15, and nowhere else. *)
Theorem layer_keys_keep_their_places (l : Layer) (a : KeyAddr) :
  KeyAddr_valid a = true ->
  (is_layer_shift <$> getKeyFromPROGMEM l a = Some true ->
   a = R3C6 \/ a = mkKeyAddr 3 9) /\
  (is_layer_lock <$> getKeyFromPROGMEM l a = Some true ->
   a = mkKeyAddr 0 15).
Proof.
  revert a. destruct l; refine (for_all_key_addrs _ _); by vm_compute.
Qed.

Lemma layer_keys_keep_their_places_witness :
  is_layer_shift <$> getKeyFromPROGMEM NAVIGATION R3C6 = Some true /\
  (R3C6 = R3C6 \/ R3C6 = mkKeyAddr 3 9).
Proof.
  split; [reflexivity|].
  apply (layer_keys_keep_their_places NAVIGATION R3C6); reflexivity.
Defined.
